(** * A shallow embedding of the video pipeline of the VOTA server

    The model follows [server/services/replicate.ts] (the provider client
    [ReplicateService]), [server/services/costTracker.ts] (the usage ledger)
    and the routes of [server/routes.ts]: the two video routes
    ([POST /api/videos] and [GET /api/videos/:id]), with the completion mail
    of [server/services/emailService.ts], [GET /api/test-replicate], and, over
    a small model of the users table, [POST /api/users] and
    [GET /api/uploads/:id].

    Effects are threaded through a small state-and-exception monad [M]:
    - every outbound [fetch] is appended to the trace [calls] of the world,
      and its outcome is read from the world's [oracle] at the index of the
      call (the provider's answer to the n-th external call);
    - [trackApiUsage] appends one record to the [ledger];
    - the persistent store keeps the videos and users; an insert into the
      videos table that leaves a [NOT NULL] column without a value throws;
    - the mails SendGrid accepts are logged in [emails];
    - a JavaScript exception is the [Exn] result carrying its message.
    Payload sizes and elapsed durations written to usage records are not
    modelled; neither are console logs. *)

From Stdlib Require Import String Ascii List Arith Lia Bool Permutation.
Import ListNotations.
Open Scope string_scope.

(** ** Strings as the code uses them *)

(** [s.includes(sub)] of JavaScript. *)
Fixpoint includes (sub s : string) : bool :=
  match s with
  | EmptyString => String.prefix sub s
  | String _ rest => String.prefix sub s || includes sub rest
  end.

(** Decimal rendering of a natural number, as in a template literal. *)
Fixpoint digits_aux (fuel n : nat) (acc : string) : string :=
  match fuel with
  | 0 => acc
  | S f =>
      let acc' := String (ascii_of_nat (48 + n mod 10)) acc in
      if Nat.ltb n 10 then acc' else digits_aux f (n / 10) acc'
  end.

Definition nat_str (n : nat) : string := digits_aux (S n) n "".

(** Truthiness of an optional string field ([null]/[undefined] and [""] are
    falsy). *)
Definition truthy (o : option string) : bool :=
  match o with
  | Some s => negb (String.eqb s "")
  | None => false
  end.

(** [x || null] for an optional string. *)
Definition or_null (o : option string) : option string :=
  if truthy o then o else None.

(** ** JSON payloads *)

#[local] Set Warnings "-register-all".
Inductive Json : Type :=
| JNull
| JStr (s : string)
| JNum (n : nat)
| JBool (b : bool)
| JArr (l : list Json)
| JObj (fields : list (string * Json)).

Definition jopt (o : option string) : Json :=
  match o with Some s => JStr s | None => JNull end.

(** ** Provider responses *)

(** [output?: string | string[] | null] *)
Inductive Output : Type :=
| ONone
| OStr (s : string)
| OArr (l : list string).

(** Truthiness of [output]: any array is truthy, a string unless empty. *)
Definition output_truthy (o : Output) : bool :=
  match o with
  | ONone => false
  | OStr s => negb (String.eqb s "")
  | OArr _ => true
  end.

Definition output_json (o : Output) : Json :=
  match o with
  | ONone => JNull
  | OStr s => JStr s
  | OArr l => JArr (map JStr l)
  end.

(** [interface ReplicateResponse] *)
Record ReplicateResponse := mkResp {
  r_id : option string;
  r_status : string;
  r_output : Output;
  r_error : option string
}.

(** What the provider does with one outbound call: either the transport or
    the JSON decoding throws (with a message), or a response arrives with
    [response.ok], [response.status] and its decoded body. *)
Inductive Outcome : Type :=
| Thrown (msg : string)
| Resp (ok : bool) (status : nat) (body : ReplicateResponse).

(** An outbound HTTP call. *)
Inductive Call : Type :=
| Post (url : string) (body : Json)
| Get (url : string).

(** ** The usage ledger ([InsertApiUsage], sizes and duration omitted) *)

Record UsageRecord := mkUsage {
  u_userId : nat;
  u_endpoint : string;
  u_requestId : option string;
  u_status : string;
  u_errorMessage : option string
}.

(** ** Stored entities *)

Record Video := mkVideo {
  v_id : nat;
  v_userId : nat;
  v_prompt : string;
  v_notificationEmail : option string;
  v_status : string;
  v_videoUrl : option string;
  v_rawVideoUrl : option string;
  v_thumbnailUrl : option string;
  v_errorMessage : option string;
  v_requestId : option string
}.

Record User := mkUser {
  us_id : nat;
  us_email : option string;
  us_faceImageUrl : option string
}.

(** ** The world *)

Record World := mkWorld {
  oracle : nat -> Outcome;
  calls : list Call;
  ledger : list UsageRecord;
  videos : nat -> option Video;
  users : nat -> option User;
  next_video_id : nat;
  emails : list (string * nat);
  now : nat;
  token_set : bool;
  (* [EmailService.isConfigured]: [SENDGRID_API_KEY] is set *)
  mail_configured : bool;
  (* whether SendGrid accepts the mail to an address about a video *)
  mail_accepts : string -> nat -> bool
}.

Inductive Result (A : Type) : Type :=
| Ok (a : A)
| Exn (msg : string).
Arguments Ok {A} a.
Arguments Exn {A} msg.

Definition M (A : Type) : Type := World -> Result A * World.

Definition ret {A} (a : A) : M A := fun w => (Ok a, w).

Definition bind {A B} (c : M A) (k : A -> M B) : M B :=
  fun w => match c w with
           | (Ok a, w') => k a w'
           | (Exn e, w') => (Exn e, w')
           end.

Definition throw {A} (msg : string) : M A := fun w => (Exn msg, w).

(** [try { c } catch (e) { h(e.message) }] *)
Definition try_catch {A} (c : M A) (h : string -> M A) : M A :=
  fun w => match c w with
           | (Ok a, w') => (Ok a, w')
           | (Exn e, w') => h e w'
           end.

Notation "x <- c ;; k" := (bind c (fun x => k))
  (at level 61, c at next level, right associativity).
Notation "' p <- c ;; k" := (bind c (fun x => match x with p => k end))
  (at level 61, p pattern, c at next level, right associativity).
Notation "c ;;; k" := (bind c (fun _ => k))
  (at level 61, right associativity).

(** [await fetch(url, ...)] followed by [await response.json()]. *)
Definition fetch (c : Call) : M (bool * nat * ReplicateResponse) :=
  fun w =>
    let o := oracle w (List.length (calls w)) in
    let w' := mkWorld (oracle w) (List.app (calls w) [c]) (ledger w) (videos w)
                      (users w) (next_video_id w) (emails w) (now w) (token_set w) (mail_configured w) (mail_accepts w) in
    match o with
    | Thrown m => (Exn m, w')
    | Resp ok st d => (Ok (ok, st, d), w')
    end.

(** [costTrackerService.trackApiUsage]: it builds the record and stores it;
    a failure of the store is swallowed, so the call never throws (the store
    is taken to accept the record). *)
Definition trackApiUsage (userId : nat) (endpoint : string)
    (requestId : option string) (status : string) (err : option string) : M unit :=
  fun w =>
    (Ok tt, mkWorld (oracle w) (calls w)
                    (List.app (ledger w) [mkUsage userId endpoint requestId status err])
                    (videos w) (users w) (next_video_id w) (emails w) (now w) (token_set w) (mail_configured w) (mail_accepts w)).

(** ** [ReplicateService]: constants *)

Definition REPLICATE_API_URL : string := "https://api.replicate.com/v1/predictions".

Definition VIDEO_MODEL : string :=
  "stability-ai/stable-video-diffusion:3f0457e4619daac51203dedb472816fd4af51f3149fa7a9e0b5ffcf1b8172438".

Definition BACKUP_VIDEO_MODELS : list string := [
  "cjwbw/damo-text-to-video:1e205ea73084bd1f48cf12292218629e3b9fd9e63fc45f7c34a0267a4a8c175e";
  "stability-ai/stable-video-diffusion:cf91c35338de27f2a2e4e00358c1e6acca289577de01f59ca9fed2c556c28c60";
  "anotherjesse/zeroscope-v2-xl:9f747673945c62801b13b4a6f2fa26925f92c4193684f23e1dc6d7fa88710286";
  "cerspense/zeroscope_v2_576w:63da0069206d88e3808a349a1cd9a07d39123e0e8c83566abbad0ddb8580e9c5"
].

Definition FACE_SWAP_MODEL : string :=
  "lucataco/faceswap-plus:0d9b8ab75eea7b60486fbc361a4566438e84c2f693aeb15af9ab36048b21ac95".

Definition FACE_EXTRACT_MODEL : string :=
  "xinntao/facexlib:c455e6fa874b7ec9f64c5eca07fa1688fe1c2c151ce507e03b03ba5a550589f5".

(** The placeholder returned by [extractFace] on every failure path. *)
Definition PLACEHOLDER_FACE_URL : string :=
  "https://replicate.delivery/pbxt/7oFCB2DH1fJtKSZza4upYNH7ZS03lMiAy3fNaP09YWzONUOIA/face.png".

(** ** [generateVideo] *)

(** The payload of the primary model. *)
Definition primary_payload (prompt : string) : Json :=
  JObj [("version", JStr VIDEO_MODEL);
        ("input", JObj [("prompt", JStr prompt); ("num_frames", JNum 24); ("fps", JNum 8)])].

(** The payload of a backup model, chosen by substring match on its id. *)
Definition backup_payload (prompt backupModel : string) : Json :=
  if includes "zeroscope" backupModel then
    JObj [("version", JStr backupModel);
          ("input", JObj [("prompt", JStr prompt)])]
  else if includes "stability-ai" backupModel then
    JObj [("version", JStr backupModel);
          ("input", JObj [("prompt", JStr prompt);
                          ("video_length", JStr "14_frames_with_svd");
                          ("sizing_strategy", JStr "maintain_aspect_ratio");
                          ("frames_per_second", JNum 7)])]
  else
    JObj [("version", JStr backupModel);
          ("input", JObj [("prompt", JStr prompt); ("width", JNum 512);
                          ("height", JNum 512); ("num_frames", JNum 24);
                          ("fps", JNum 8)])].

(** The field names of the [input] object of a submit payload. *)
Definition input_keys (j : Json) : list string :=
  match j with
  | JObj fields =>
      match find (fun kv => String.eqb (fst kv) "input") fields with
      | Some (_, JObj inp) => map fst inp
      | _ => []
      end
  | _ => []
  end.

(** [!response.ok || responseData.error] *)
Definition is_error_response (ok : bool) (d : ReplicateResponse) : bool :=
  negb ok || truthy (r_error d).

(** [responseData.error || `API returned ${response.status}`] *)
Definition error_reason (st : nat) (d : ReplicateResponse) : string :=
  if truthy (r_error d) then
    match r_error d with Some e => e | None => "" end
  else "API returned " ++ nat_str st.

(** One iteration of the backup loop, for backup [i] (0-based) with the
    [errors] collected so far: either an early [return] of the response
    ([inl]) or the errors after this attempt ([inr]). *)
Definition backup_attempt (prompt : string) (userId i : nat) (backupModel : string)
    (errors : list string) : M (ReplicateResponse + list string) :=
  let backupPayload := backup_payload prompt backupModel in
  try_catch
    ('(ok, st, d) <- fetch (Post REPLICATE_API_URL backupPayload) ;;
     if ok && negb (truthy (r_error d)) then
       trackApiUsage userId ("replicate/backup-model-" ++ nat_str (i + 1) ++ "-success")
         (r_id d) "success" None ;;;
       ret (inl d)
     else
       let errors := List.app errors ["Backup model " ++ nat_str (i + 1) ++ " error: " ++ error_reason st d] in
       trackApiUsage userId ("replicate/backup-model-" ++ nat_str (i + 1) ++ "-error")
         (or_null (r_id d)) "error" (Some (error_reason st d)) ;;;
       ret (inr errors))
    (* [trackApiUsage] never throws, so the only exceptions come from
       [fetch], before [errors.push] *)
    (fun m => ret (inr (List.app errors ["Backup model " ++ nat_str (i + 1) ++ " exception: " ++ m]))).

(** [for (let i = 0; i < BACKUP_VIDEO_MODELS.length; i++) { ... }] *)
Fixpoint backup_loop (prompt : string) (userId i : nat) (models : list string)
    (errors : list string) : M (ReplicateResponse + list string) :=
  match models with
  | [] => ret (inr errors)
  | m :: rest =>
      r <- backup_attempt prompt userId i m errors ;;
      match r with
      | inl d => ret (inl d)
      | inr errors' => backup_loop prompt userId (S i) rest errors'
      end
  end.

Definition all_failed_message (errors : list string) : string :=
  "All video generation models failed: " ++ String.concat ", " errors.

Definition generateVideo (prompt : string) (userId : nat) : M ReplicateResponse :=
  let payload := primary_payload prompt in
  try_catch
    ('(ok, st, d) <- fetch (Post REPLICATE_API_URL payload) ;;
     if is_error_response ok d then
       trackApiUsage userId "replicate/primary-model-error" (or_null (r_id d)) "error"
         (Some (error_reason st d)) ;;;
       let errors := ["Primary model error: " ++ error_reason st d] in
       r <- backup_loop prompt userId 0 BACKUP_VIDEO_MODELS errors ;;
       match r with
       | inl d' => ret d'
       | inr errors' => throw (all_failed_message errors')
       end
     else
       trackApiUsage userId "replicate/stable-video-diffusion" (r_id d) "success" None ;;;
       ret d)
    (fun m =>
       trackApiUsage userId "replicate/stable-video-diffusion" None "error" (Some m) ;;;
       throw m).

(** ** [checkVideoStatus] *)

Definition checkVideoStatus (predictionId : string) (userId : nat) : M ReplicateResponse :=
  try_catch
    ('(ok, st, d) <- fetch (Get (REPLICATE_API_URL ++ "/" ++ predictionId)) ;;
     if is_error_response ok d then
       trackApiUsage userId "replicate/status-check" (Some predictionId) "error"
         (Some (error_reason st d)) ;;;
       throw ("Replicate status check API error: " ++ error_reason st d)
     else
       trackApiUsage userId "replicate/status-check" (Some predictionId) "success" None ;;;
       (* the first element of a non-empty array output is the video *)
       match r_output d with
       | OArr (u :: _) =>
           if String.eqb (r_status d) "succeeded"
           then ret (mkResp (r_id d) (r_status d) (OStr u) (r_error d))
           else ret d
       | _ => ret d
       end)
    (fun m =>
       trackApiUsage userId "replicate/status-check" (Some predictionId) "error" (Some m) ;;;
       throw m).

(** ** [swapFace] *)

(** [targetVideoUrl] may be [undefined] (an empty array output upstream);
    [JSON.stringify] then leaves the [target_image] field out of the body. *)
Definition swap_payload (targetVideoUrl : option string) (sourceImageUrl : string) : Json :=
  JObj [("version", JStr FACE_SWAP_MODEL);
        ("input", JObj (List.app
                          (match targetVideoUrl with
                           | Some u => [("target_image", JStr u)]
                           | None => []
                           end)
                          [("source_image", JStr sourceImageUrl);
                           ("face_index", JNum 0); ("keep_fps", JBool true)]))].

Definition swapFace (targetVideoUrl : option string) (sourceImageUrl : string)
    (userId : nat) : M ReplicateResponse :=
  let payload := swap_payload targetVideoUrl sourceImageUrl in
  try_catch
    ('(ok, st, d) <- fetch (Post REPLICATE_API_URL payload) ;;
     if is_error_response ok d then
       trackApiUsage userId "replicate/face-swap" (or_null (r_id d)) "error"
         (Some (error_reason st d)) ;;;
       throw ("Replicate face swap API error: " ++ error_reason st d)
     else
       trackApiUsage userId "replicate/face-swap" (r_id d) "success" None ;;;
       ret d)
    (fun m =>
       trackApiUsage userId "replicate/face-swap" None "error" (Some m) ;;;
       throw m).

(** ** [checkFaceSwapStatus] *)

Definition checkFaceSwapStatus (predictionId : string) (userId : nat) : M ReplicateResponse :=
  try_catch
    ('(ok, st, d) <- fetch (Get (REPLICATE_API_URL ++ "/" ++ predictionId)) ;;
     trackApiUsage userId "replicate/status-check" (Some predictionId)
       (if ok then "success" else "error")
       (if ok then None
        else if truthy (r_error d) then r_error d else Some "Unknown error") ;;;
     ret d)
    (fun m =>
       trackApiUsage userId "replicate/status-check" (Some predictionId) "error" (Some m) ;;;
       throw m).

(** ** [testConnection] (no usage record) *)

Definition CONNECTION_URL : string := "https://api.replicate.com/v1".

(** [JSON.stringify] of a value, escaping the quote and the backslash in
    strings (other control characters are not escaped here). *)
Definition quote_char : ascii := ascii_of_nat 34.
Definition backslash_char : ascii := ascii_of_nat 92.

Fixpoint json_escape (s : string) : string :=
  match s with
  | EmptyString => EmptyString
  | String c r =>
      if Ascii.eqb c quote_char then String backslash_char (String quote_char (json_escape r))
      else if Ascii.eqb c backslash_char then
        String backslash_char (String backslash_char (json_escape r))
      else String c (json_escape r)
  end.

Definition json_string (s : string) : string :=
  String quote_char (json_escape s ++ String quote_char EmptyString).

Fixpoint json_text (j : Json) : string :=
  match j with
  | JNull => "null"
  | JStr s => json_string s
  | JNum n => nat_str n
  | JBool b => if b then "true" else "false"
  | JArr l => "[" ++ String.concat "," (map json_text l) ++ "]"
  | JObj fs =>
      "{" ++ String.concat ","
               (map (fun kv => match kv with (k, v) => json_string k ++ ":" ++ json_text v end) fs)
      ++ "}"
  end.

(** The decoded body with the fields the model keeps of it. *)
Definition response_json (d : ReplicateResponse) : Json :=
  JObj [("id", jopt (r_id d)); ("status", JStr (r_status d));
        ("output", match r_output d with
                   | ONone => JNull
                   | OStr u => JStr u
                   | OArr l => JArr (map JStr l)
                   end);
        ("error", jopt (r_error d))].

Definition testConnection : M (bool * string) :=
  try_catch
    ('(ok, st, d) <- fetch (Get CONNECTION_URL) ;;
     ret (ok, if ok then "Successfully connected to Replicate API"
              else "Failed to connect to Replicate API: " ++ json_text (response_json d)))
    (fun m => ret (false, "Failed to connect to Replicate API: " ++ m)).

(** ** [extractFace] *)

Definition extract_payload (videoData : string) : Json :=
  JObj [("version", JStr FACE_EXTRACT_MODEL);
        ("input", JObj [("image", JStr videoData); ("detection_size", JNum 640)])].

(** What the polling loop ends with: a result whose output is truthy
    ([break]), an early [return] of the placeholder after a [failed] job, or
    running out of attempts. *)
Inductive PollEnd : Type :=
| Extracted (d : ReplicateResponse)
| ExtractionFailed
| Exhausted.

(** [while (attempt < maxAttempts) { attempt++; ... }] with [fuel] the
    remaining attempts; the two-second sleep between polls has no effect on
    the model. *)
Fixpoint extract_poll (userId : nat) (extractionId : option string) (fuel : nat) : M PollEnd :=
  match fuel with
  | 0 => ret Exhausted
  | S f =>
      '(ok, st, d) <- fetch (Get (REPLICATE_API_URL ++ "/" ++
                                   match extractionId with Some x => x | None => "undefined" end)) ;;
      if String.eqb (r_status d) "succeeded" && output_truthy (r_output d) then
        ret (Extracted d)
      else if String.eqb (r_status d) "failed" then
        trackApiUsage userId "replicate/face-extraction" extractionId "error"
          (if truthy (r_error d) then r_error d else Some "Face extraction failed") ;;;
        ret ExtractionFailed
      else extract_poll userId extractionId f
  end.

Definition maxAttempts : nat := 20.

(** [faceImageUrl.length] on [undefined] (empty array output) throws. *)
Definition TYPE_ERROR_LENGTH : string :=
  "Cannot read properties of undefined (reading 'length')".

(** The [try] block of [extractFace]. *)
Definition extractFace_try (videoData : string) (userId : nat) : M string :=
  let payload := extract_payload videoData in
  '(ok, st, d) <- fetch (Post REPLICATE_API_URL payload) ;;
  if is_error_response ok d then
    trackApiUsage userId "replicate/face-extraction" (or_null (r_id d)) "error"
      (Some (error_reason st d)) ;;;
    ret PLACEHOLDER_FACE_URL
  else
    let extractionId := r_id d in
    e <- extract_poll userId extractionId maxAttempts ;;
    match e with
    | ExtractionFailed => ret PLACEHOLDER_FACE_URL
    | Exhausted =>
        trackApiUsage userId "replicate/face-extraction" extractionId "error"
          (Some "Face extraction timed out") ;;;
        ret PLACEHOLDER_FACE_URL
    | Extracted r =>
        match r_output r with
        | OArr [] => throw TYPE_ERROR_LENGTH
        | OArr (u :: _) | OStr u =>
            trackApiUsage userId "replicate/face-extraction" extractionId "success" None ;;;
            ret u
        | ONone => (* excluded by the truthiness test of the loop *)
            trackApiUsage userId "replicate/face-extraction" extractionId "error"
              (Some "Face extraction timed out") ;;;
            ret PLACEHOLDER_FACE_URL
        end
    end.

(** Its [catch] block. *)
Definition extractFace_catch (userId : nat) (m : string) : M string :=
  trackApiUsage userId "replicate/face-extraction" None "error" (Some m) ;;;
  ret PLACEHOLDER_FACE_URL.

Definition extractFace (videoData : string) (userId : nat) : M string :=
  try_catch (extractFace_try videoData userId) (extractFace_catch userId).

(** ** The store *)

Definition set_videos (f : nat -> option Video) : M unit :=
  fun w => (Ok tt, mkWorld (oracle w) (calls w) (ledger w) f (users w)
                           (next_video_id w) (emails w) (now w) (token_set w) (mail_configured w) (mail_accepts w)).

(** [DatabaseStorage.getVideo] (the storage module, appended to [routes.ts]
    in the sources): a read of the record keyed by its id. The route passes
    [parseInt(req.params.id)]; a parameter that is not an integer gives
    [NaN], which the real query rejects with an exception (the route's 500);
    the model takes the id as a [nat] and covers integer ids only. *)
Definition getVideo (id : nat) : M (option Video) := fun w => (Ok (videos w id), w).

(** [DatabaseStorage.getUser]. *)
Definition getUser (id : nat) : M (option User) := fun w => (Ok (users w id), w).

(** [DatabaseStorage.updateVideo]: [update videos set ... where id = ...
    returning], a partial-field update of the record keyed by [id], returning
    the updated record ([undefined] when there is none). *)
Definition updateVideo (id : nat) (patch : Video -> Video) : M (option Video) :=
  fun w =>
    match videos w id with
    | None => (Ok None, w)
    | Some v =>
        let v' := patch v in
        (Ok (Some v'),
         mkWorld (oracle w) (calls w) (ledger w)
                 (fun k => if Nat.eqb k id then Some v' else videos w k)
                 (users w) (next_video_id w) (emails w) (now w) (token_set w) (mail_configured w) (mail_accepts w))
    end.

Definition with_status (s : string) (v : Video) : Video :=
  mkVideo (v_id v) (v_userId v) (v_prompt v) (v_notificationEmail v) s (v_videoUrl v)
          (v_rawVideoUrl v) (v_thumbnailUrl v) (v_errorMessage v) (v_requestId v).

Definition with_requestId (r : option string) (v : Video) : Video :=
  mkVideo (v_id v) (v_userId v) (v_prompt v) (v_notificationEmail v) (v_status v) (v_videoUrl v)
          (v_rawVideoUrl v) (v_thumbnailUrl v) (v_errorMessage v) r.

(** [DatabaseStorage.updateVideoStatus]: [set({ status })]. *)
Definition updateVideoStatus (id : nat) (s : string) : M (option Video) :=
  updateVideo id (with_status s).

(** The row [POST /api/videos] hands to [DatabaseStorage.createVideo]:
    [insertVideoSchema] omits [status] and [videoUrl], and the handler does
    not add them, so both are [None] there. The columns the handler fills
    and the model does not use ([title], [negativePrompt], [aspectRatio],
    [duration], [cfgScale]) are left out. *)
Record VideoInsert := mkVideoInsert {
  vi_userId : nat;
  vi_prompt : string;
  vi_notificationEmail : option string;
  vi_videoUrl : option string;
  vi_status : option string
}.

Definition not_null_violation (column : string) : string :=
  "null value in column " ++ column ++ " of relation videos violates not-null constraint".

(** [DatabaseStorage.createVideo]: [insert into videos ... returning]. The
    table declares [video_url] and [status] [NOT NULL] without a default
    ([shared/schema.ts], and the migration kept in the sources), so a row
    without them is rejected by the database, which throws (the columns are
    checked in table order). The database assigns the id (a counter here). *)
Definition createVideo (row : VideoInsert) : M Video :=
  fun w =>
    match vi_videoUrl row, vi_status row with
    | None, _ => (Exn (not_null_violation "video_url"), w)
    | Some _, None => (Exn (not_null_violation "status"), w)
    | Some url, Some st =>
        let v := mkVideo (next_video_id w) (vi_userId row) (vi_prompt row)
                         (vi_notificationEmail row) st (Some url) None None None None in
        (Ok v, mkWorld (oracle w) (calls w) (ledger w)
                       (fun k => if Nat.eqb k (next_video_id w) then Some v else videos w k)
                       (users w) (S (next_video_id w)) (emails w) (now w) (token_set w)
                       (mail_configured w) (mail_accepts w))
    end.

(** [EmailService.sendEmail]: nothing is sent unless SendGrid is configured;
    a failure of SendGrid is caught and answered [false]. [emails] logs the
    mails SendGrid accepted, with the video they are about. *)
Definition sendEmail (to : string) (videoId : nat) : M bool :=
  fun w =>
    if mail_configured w && mail_accepts w to videoId then
      (Ok true, mkWorld (oracle w) (calls w) (ledger w) (videos w) (users w)
                        (next_video_id w) (List.app (emails w) [(to, videoId)])
                        (now w) (token_set w) (mail_configured w) (mail_accepts w))
    else (Ok false, w).

(** [EmailService.sendVideoGenerationCompleteNotification]: mails the
    video's notification address, or else the user's. *)
Definition sendVideoGenerationCompleteNotification (user : User) (video : Video) : M bool :=
  let emailToNotify := if truthy (v_notificationEmail video) then v_notificationEmail video
                       else us_email user in
  match emailToNotify with
  | Some addr => if truthy emailToNotify then sendEmail addr (v_id video) else ret false
  | None => ret false
  end.

(** [if (user && user.email && updatedVideo) { try { await send... } catch {} }] *)
Definition notify_completion (userId : nat) (updated : option Video) : M unit :=
  user <- getUser userId ;;
  match user, updated with
  | Some u, Some v =>
      if truthy (us_email u) then sendVideoGenerationCompleteNotification u v ;;; ret tt
      else ret tt
  | _, _ => ret tt
  end.

(** ** Route replies *)

(** A reply body: either a video record spread with extra (overriding)
    fields, [{ ...video, k: v, ... }], or a plain object. *)
Inductive Body : Type :=
| BVideo (v : Video) (extra : list (string * Json))
| BObj (fields : list (string * Json)).

Record Reply := mkReply { code : nat; body : Body }.

(** [Array.isArray(output) ? output[0] : output as string] *)
Definition first_url (o : Output) : option string :=
  match o with
  | OArr (u :: _) => Some u
  | OArr [] => None
  | OStr s => Some s
  | ONone => None
  end.

Definition is_terminal (s : string) : bool :=
  String.eqb s "completed" || String.eqb s "failed".

(** ** [GET /api/videos/:id] *)

(** The swap phase: [video.rawVideoUrl] is set and the outstanding job was
    polled through [checkVideoStatus] without [succeeded]. *)
Definition swap_phase (video : Video) (rid : string) (uid : nat) : M Reply :=
  swapStatusResult <- checkFaceSwapStatus rid uid ;;
  if String.eqb (r_status swapStatusResult) "succeeded"
     && output_truthy (r_output swapStatusResult) then
    let swappedVideoUrl := first_url (r_output swapStatusResult) in
    updated <- updateVideo (v_id video)
      (fun v => mkVideo (v_id v) (v_userId v) (v_prompt v) (v_notificationEmail v)
                        "completed" swappedVideoUrl (v_rawVideoUrl v)
                        (v_rawVideoUrl video) (v_errorMessage v) (v_requestId v)) ;;
    notify_completion uid updated ;;;
    ret (mkReply 200 (BVideo video [("status", JStr "completed");
                                    ("videoUrl", output_json (r_output swapStatusResult))]))
  else if String.eqb (r_status swapStatusResult) "failed" then
    updated <- updateVideo (v_id video)
      (fun v => mkVideo (v_id v) (v_userId v) (v_prompt v) (v_notificationEmail v)
                        "completed" (v_rawVideoUrl video) (v_rawVideoUrl v)
                        (v_thumbnailUrl v) (r_error swapStatusResult) (v_requestId v)) ;;
    notify_completion uid updated ;;;
    ret (mkReply 200 (BVideo video [("status", JStr "completed");
                                    ("videoUrl", jopt (v_rawVideoUrl video));
                                    ("errorMessage", JStr "Face swap failed, showing original video")]))
  else
    ret (mkReply 200 (BVideo video [("status", JStr "processing");
                                    ("message", JStr "Face swap in progress");
                                    ("progress", JStr "0.7")])).

(** The inner [try] block of the handler, for a non-terminal video. *)
Definition check_upstream (video : Video) : M Reply :=
  match v_requestId video with
  | None =>
      ret (mkReply 200 (BVideo video [("message", JStr "Waiting for generation to start")]))
  | Some rid =>
    if negb (truthy (Some rid)) then
      ret (mkReply 200 (BVideo video [("message", JStr "Waiting for generation to start")]))
    else
    let uid := v_userId video in
    statusResult <- checkVideoStatus rid uid ;;
    if String.eqb (r_status statusResult) "succeeded" && output_truthy (r_output statusResult) then
      let videoUrl := first_url (r_output statusResult) in
      user <- getUser uid ;;
      match user with
      | Some u =>
        if truthy (us_faceImageUrl u) then
          let face := match us_faceImageUrl u with Some f => f | None => "" end in
          swapResult <- swapFace videoUrl face uid ;;
          updateVideo (v_id video)
            (fun v => mkVideo (v_id v) (v_userId v) (v_prompt v) (v_notificationEmail v)
                              (v_status v) (v_videoUrl v) videoUrl (v_thumbnailUrl v)
                              (v_errorMessage v) (r_id swapResult)) ;;;
          ret (mkReply 200 (BVideo video [("status", JStr "processing");
                                          ("message", JStr "Face swap in progress");
                                          ("progress", JStr "0.5")]))
        else
          updated <- updateVideo (v_id video)
            (fun v => mkVideo (v_id v) (v_userId v) (v_prompt v) (v_notificationEmail v)
                              "completed" videoUrl (v_rawVideoUrl v) (v_thumbnailUrl v)
                              (v_errorMessage v) (v_requestId v)) ;;
          notify_completion uid updated ;;;
          ret (mkReply 200 (BVideo video [("status", JStr "completed");
                                          ("videoUrl", jopt videoUrl)]))
      | None =>
          updated <- updateVideo (v_id video)
            (fun v => mkVideo (v_id v) (v_userId v) (v_prompt v) (v_notificationEmail v)
                              "completed" videoUrl (v_rawVideoUrl v) (v_thumbnailUrl v)
                              (v_errorMessage v) (v_requestId v)) ;;
          notify_completion uid updated ;;;
          ret (mkReply 200 (BVideo video [("status", JStr "completed");
                                          ("videoUrl", jopt videoUrl)]))
      end
    else if String.eqb (r_status statusResult) "failed" then
      updateVideoStatus (v_id video) "failed" ;;;
      ret (mkReply 200 (BVideo video [("status", JStr "failed");
                                      ("error", jopt (r_error statusResult))]))
    else if truthy (v_rawVideoUrl video)
            && negb (String.eqb (r_status statusResult) "succeeded") then
      swap_phase video rid uid
    else
      ret (mkReply 200 (BVideo video [("status", JStr "processing");
                                      ("message", JStr "Video generation in progress");
                                      ("progress", JStr "0.3")]))
  end.

Definition get_video (id : nat) : M Reply :=
  try_catch
    (ov <- getVideo id ;;
     match ov with
     | None => ret (mkReply 404 (BObj [("message", JStr "Video not found")]))
     | Some video =>
         if is_terminal (v_status video) then ret (mkReply 200 (BVideo video []))
         else
           try_catch (check_upstream video)
             (* Don't update status on API error *)
             (fun m => ret (mkReply 200 (BVideo video [("error", JStr m)])))
     end)
    (fun m => ret (mkReply 500 (BObj [("message", JStr "Failed to get video");
                                       ("error", JStr m)]))).

(** ** [POST /api/videos] *)

(** The request after [insertVideoSchema.parse]; [title] and the generation
    options ([negativePrompt], [aspectRatio], [duration], [cfgScale]) only
    feed columns of the insert that the model leaves out and [generateVideo],
    which this handler does not call, and are left out. *)
Record VideoRequest := mkVideoRequest {
  q_prompt : string;
  q_userId : nat;
  q_email : option string
}.

(** [const useDevelopmentMode = true;] *)
Definition useDevelopmentMode : bool := true.

(** The body of the inner [try]: connection test, token check, generation
    (simulated in development mode) and storing the handle. *)
Definition start_generation (video : Video) (q : VideoRequest) : M unit :=
  '(success, message) <- testConnection ;;
  if negb success then throw ("Replicate API connection failed: " ++ message)
  else
    (fun w => (if token_set w then Ok tt else Exn "REPLICATE_API_TOKEN is not set or is empty", w)) ;;;
    generateResult <-
      (if useDevelopmentMode then
         fun w => (Ok (mkResp (Some ("dev-" ++ nat_str (now w))) "processing" ONone None), w)
       else generateVideo (q_prompt q) (q_userId q)) ;;
    updateVideo (v_id video) (with_requestId (r_id generateResult)) ;;;
    ret tt.

(** The outer [try] of the handler, after [insertVideoSchema.parse]. *)
Definition post_videos_try (q : VideoRequest) : M Reply :=
  user <- getUser (q_userId q) ;;
  match user with
  | None => ret (mkReply 404 (BObj [("message", JStr "User not found")]))
  | Some u =>
    if negb (truthy (us_faceImageUrl u)) then
      ret (mkReply 400 (BObj [("message", JStr "User does not have a profile image. Please upload a video first.")]))
    else
      video <- createVideo (mkVideoInsert (q_userId q) (q_prompt q) (q_email q) None None) ;;
      updateVideoStatus (v_id video) "processing" ;;;
      try_catch
        (try_catch (start_generation video q) (fun m => throw m) ;;;
         ret (mkReply 200 (BObj [("message", JStr "Video generation started");
                                 ("videoId", JNum (v_id video));
                                 ("status", JStr "processing")])))
        (fun m =>
           updateVideoStatus (v_id video) "failed" ;;;
           ret (mkReply 500 (BObj [("message", JStr "Failed to start video generation");
                                   ("error", JStr (if String.eqb m "" then "Unknown error" else m))])))
  end.

(** [POST /api/videos]: a request that fails validation ([ZodError], 400)
    is outside [VideoRequest]; any other exception of the outer [try] is
    answered 500 "Failed to generate video". The reply also carries the
    serialized error object under [error], which is not modelled. *)
Definition post_videos (q : VideoRequest) : M Reply :=
  try_catch (post_videos_try q)
    (fun _ => ret (mkReply 500 (BObj [("message", JStr "Failed to generate video")]))).

(** ** [POST /api/users] *)

(** A row of the [users] table ([loraId], [trainingStatus] and [createdAt]
    are not modelled). *)
Record DbUser := mkDbUser {
  du_id : nat;
  du_username : string;
  du_password : string;
  du_email : option string;
  du_faceImageUrl : option string;
  du_processingStatus : option string
}.

Record UserDb := mkUserDb { db_users : list DbUser; db_next_id : nat }.

(** The body after [insertUserSchema.parse]: [username], [password] and an
    optional [email]. *)
Record UserRequest := mkUserRequest {
  rq_username : string;
  rq_password : string;
  rq_email : option string
}.

(** [DatabaseStorage.getUserByUsername]: the first row with that name. *)
Definition getUserByUsername (username : string) (db : UserDb) : option DbUser :=
  find (fun u => String.eqb (du_username u) username) (db_users db).

(** [DatabaseStorage.getUser] on the users table. *)
Definition getUserById (id : nat) (db : UserDb) : option DbUser :=
  find (fun u => Nat.eqb (du_id u) id) (db_users db).

(** [DatabaseStorage.createUser]: [insert ... values({ ...insertUser,
    processingStatus: "not_started", createdAt }) returning]; the database
    assigns the id (a counter here) and refuses a second row with the same
    username ([username ... .unique()]), the insert then throwing. *)
Definition createUser (username password : string) (db : UserDb) : option (DbUser * UserDb) :=
  match getUserByUsername username db with
  | Some _ => None
  | None =>
      let u := mkDbUser (db_next_id db) username password None None (Some "not_started") in
      Some (u, mkUserDb (List.app (db_users db) [u]) (S (db_next_id db)))
  end.

(** A row as JSON. *)
Definition user_json (u : DbUser) : list (string * Json) :=
  [("id", JNum (du_id u)); ("username", JStr (du_username u));
   ("password", JStr (du_password u)); ("email", jopt (du_email u));
   ("faceImageUrl", jopt (du_faceImageUrl u));
   ("processingStatus", jopt (du_processingStatus u))].

(** [const { [k]: _, ...rest } = obj] *)
Definition omit_key (k : string) (fields : list (string * Json)) : list (string * Json) :=
  filter (fun kv => negb (String.eqb (fst kv) k)) fields.

(** The handler on a parsed body: only [username] and [password] are taken
    from it. A throwing insert lands in the 500 branch, whose serialized
    [error] object is not modelled. *)
Definition post_users (q : UserRequest) (db : UserDb) : Reply * UserDb :=
  let '{| rq_username := username; rq_password := password |} := q in
  match getUserByUsername username db with
  | Some _ => (mkReply 400 (BObj [("message", JStr "Username already exists")]), db)
  | None =>
      match createUser username password db with
      | Some (user, db') => (mkReply 200 (BObj (omit_key "password" (user_json user))), db')
      | None => (mkReply 500 (BObj [("message", JStr "Failed to create user")]), db)
      end
  end.

(** ** [GET /api/uploads/:id] *)

(** A row of the [user_uploads] table ([metadata] and [createdAt] are not
    modelled). *)
Record Upload := mkUpload {
  up_id : nat;
  up_userId : option nat;
  up_videoData : string;
  up_faceImageUrl : option string;
  up_processingStatus : string;
  up_errorMessage : option string
}.

Definition upload_json (u : Upload) : list (string * Json) :=
  [("id", JNum (up_id u));
   ("userId", match up_userId u with Some n => JNum n | None => JNull end);
   ("videoData", JStr (up_videoData u)); ("faceImageUrl", jopt (up_faceImageUrl u));
   ("processingStatus", JStr (up_processingStatus u));
   ("errorMessage", jopt (up_errorMessage u))].

(** The handler: [getUserUpload] reads the uploads (never written here); a
    pending upload whose user is missing makes it insert a default user
    [user_<userId || 1>], a failing insert being caught. *)
Definition get_upload (uploads : nat -> option Upload) (id : nat) (db : UserDb) : Reply * UserDb :=
  match uploads id with
  | None => (mkReply 404 (BObj [("message", JStr "Upload not found")]), db)
  | Some userUpload =>
    if String.eqb (up_processingStatus userUpload) "failed" then
      let message := if truthy (up_errorMessage userUpload)
                     then jopt (up_errorMessage userUpload)
                     else JStr "Processing failed, but we're working on making it better!" in
      (mkReply 200 (BObj (List.app (upload_json userUpload) [("message", message)])), db)
    else if String.eqb (up_processingStatus userUpload) "completed" then
      (mkReply 200 (BObj (upload_json userUpload)), db)
    else
      (* [Number(userUpload.userId)], [Number(null)] being 0 *)
      let uid := match up_userId userUpload with Some n => n | None => 0 end in
      let db' :=
        match getUserById uid db with
        | Some _ => db
        | None =>
            let defaultUserId := if Nat.eqb uid 0 then 1 else uid in
            match createUser ("user_" ++ nat_str defaultUserId) "default_password" db with
            | Some (_, db1) => db1
            | None => db
            end
        end in
      (mkReply 200 (BObj (List.app (upload_json userUpload)
                            [("message", JStr "Your video is being processed. This may take a few moments.")])),
       db')
  end.

(** ** [CostTrackerService]: the cost table *)

(** [COST_MULTIPLIERS], in thousandths of a dollar per request. *)
Definition COST_MULTIPLIERS : list (string * nat) :=
  [("replicate/kling-video-generation", 50); ("replicate/face-swap", 30);
   ("replicate/status-check", 1); ("default", 10)].

(** [COST_MULTIPLIERS[key]] ([undefined] when the key is absent; the
    endpoint labels the services pass are none of the keys an object
    inherits). *)
Definition cost_lookup (key : string) : option nat :=
  match find (fun kv => String.eqb (fst kv) key) COST_MULTIPLIERS with
  | Some (_, c) => Some c
  | None => None
  end.

(** [COST_MULTIPLIERS[endpoint] || COST_MULTIPLIERS.default] ([0] is
    falsy). *)
Definition cost_multiplier (endpoint : string) : nat :=
  let default := match cost_lookup "default" with Some c => c | None => 0 end in
  match cost_lookup endpoint with
  | Some c => if Nat.eqb c 0 then default else c
  | None => default
  end.

(** The usage records [c] appends all satisfy [P], and [c] only appends. *)
Definition appends (P : UsageRecord -> Prop) {A} (c : M A) : Prop :=
  forall w, exists added,
    ledger (snd (c w)) = List.app (ledger w) added /\ Forall P added.

(** Every value [c] returns satisfies [Q]. *)
Definition ok_satisfies {A} (Q : A -> Prop) (c : M A) : Prop :=
  forall w, match fst (c w) with Ok a => Q a | Exn _ => True end.

(** [c] changes no stored video but, possibly, the one keyed by [id]. *)
Definition touches_only {A} (id : nat) (c : M A) : Prop :=
  forall w k, k <> id -> videos (snd (c w)) k = videos w k.

(** ** [GET /api/test-replicate] *)

(** [token] is [process.env.REPLICATE_API_TOKEN || '']; the reply spreads
    the result of [testConnection]. *)
Definition test_replicate (token : string) : M Reply :=
  try_catch
    (if String.eqb token "" then
       ret (mkReply 500 (BObj [("success", JBool false);
                               ("message", JStr "REPLICATE_API_TOKEN is not set in environment variables");
                               ("hasToken", JBool false)]))
     else
       '(success, message) <- testConnection ;;
       ret (mkReply 200 (BObj [("success", JBool success); ("message", JStr message);
                               ("hasToken", JBool true);
                               ("tokenLength", JNum (String.length token))])))
    (fun m => ret (mkReply 500 (BObj [("success", JBool false);
                                      ("message", JStr "Failed to test Replicate API");
                                      ("error", JStr m);
                                      ("hasToken", JBool (negb (String.eqb token "")));
                                      ("tokenLength", JNum (String.length token))]))).

(** ** Frame predicates on computations of [M] *)

(** [c] leaves the stored videos as they were. *)
Definition keeps_videos {A} (c : M A) : Prop :=
  forall w, videos (snd (c w)) = videos w.

(** [c] never throws. *)
Definition never_raises {A} (c : M A) : Prop :=
  forall w, exists a w', c w = (Ok a, w').

(** When [c] throws, it has left the stored videos as they were. *)
Definition raise_keeps_videos {A} (c : M A) : Prop :=
  forall w m w', c w = (Exn m, w') -> videos w' = videos w.

(** ** Vocabulary of the fallback properties *)

(** An attempt fails when its submit throws or answers with an error
    response; the code's success test is [ok && !error]. *)
Definition attempt_fails (o : Outcome) : bool :=
  match o with
  | Thrown _ => true
  | Resp ok _ d => is_error_response ok d
  end.

(** The failure reason of an attempt, as the code reports it. *)
Definition failure_reason (o : Outcome) : string :=
  match o with
  | Thrown m => m
  | Resp _ st d => error_reason st d
  end.

(** The label of attempt [j]: 0 is the primary model, [j > 0] the [j]-th
    backup (1-indexed). *)
Definition attempt_label (j : nat) (o : Outcome) : string :=
  match j with
  | 0 => "Primary model error: "
  | S _ => "Backup model " ++ nat_str j ++
           match o with Thrown _ => " exception: " | Resp _ _ _ => " error: " end
  end.

(** ** Extraction outcomes *)

(** A poll after which the extraction loop goes on: no usable result yet and
    the job has not failed. *)
Definition poll_pending (o : Outcome) : bool :=
  match o with
  | Thrown _ => false
  | Resp _ _ d =>
      negb (String.eqb (r_status d) "succeeded" && output_truthy (r_output d)) &&
      negb (String.eqb (r_status d) "failed")
  end.

(** A poll that ends the extraction without a face: the call throws, the job
    failed, or it succeeded with an empty output array. *)
Definition poll_fails (o : Outcome) : Prop :=
  match o with
  | Thrown _ => True
  | Resp _ _ d =>
      r_status d = "failed" \/ (r_status d = "succeeded" /\ r_output d = OArr [])
  end.

(** The ways an extraction whose submit is call [n0] fails: the submit fails,
    or it is accepted and the polls (calls [n0 + 1], ...) stay pending for all
    [maxAttempts] attempts, or stay pending until one of them fails. *)
Definition extraction_fails (o : nat -> Outcome) (n0 : nat) : Prop :=
  attempt_fails (o n0) = true \/
  (attempt_fails (o n0) = false /\
   ((forall i, i < maxAttempts -> poll_pending (o (n0 + 1 + i)) = true) \/
    (exists j, j < maxAttempts /\
       (forall i, i < j -> poll_pending (o (n0 + 1 + i)) = true) /\
       poll_fails (o (n0 + 1 + j))))).

(** The number of extra usage records an outcome causes in a function that
    tracks an error response before throwing and tracks the thrown error
    again in its [catch]. *)
Definition error_response_extra (o : Outcome) : nat :=
  match o with
  | Thrown _ => 0
  | Resp ok _ d => if is_error_response ok d then 1 else 0
  end.

(** ** Sample inputs used by the concrete runs below *)

Definition sample_video : Video :=
  mkVideo 1 7 "a cat surfing" None "completed" (Some "final.mp4") (Some "raw.mp4")
          (Some "raw.mp4") None (Some "swap-1").

Definition sample_user : User := mkUser 7 (Some "user@example.com") (Some "face.png").

Definition sample_world (o : nat -> Outcome) (v : Video) : World :=
  mkWorld o [] [] (fun k => if Nat.eqb k (v_id v) then Some v else None)
          (fun k => if Nat.eqb k 7 then Some sample_user else None) 2 [] 1234 true true (fun _ _ => true).

Definition ok_response (id : string) : ReplicateResponse := mkResp (Some id) "starting" ONone None.

(** The primary answers 422 with an error, backup 1 throws, backup 2 and
    every later call succeed. *)
Definition c1_world : World :=
  sample_world (fun n => match n with
                         | 0 => Resp false 422 (mkResp None "failed" ONone (Some "E0"))
                         | 1 => Thrown "socket hang up"
                         | _ => Resp true 201 (ok_response "backup-2")
                         end) sample_video.

(** The primary submit throws (DNS failure); backup 1 would succeed. *)
Definition primary_throws_world : World :=
  sample_world (fun n => match n with
                         | 0 => Thrown "getaddrinfo ENOTFOUND api.replicate.com"
                         | _ => Resp true 201 (ok_response "backup-1")
                         end) sample_video.

(** The primary submit throws; every backup answers 500 with error [En]. *)
Definition primary_throws_all_fail_world : World :=
  sample_world (fun n => match n with
                         | 0 => Thrown "getaddrinfo ENOTFOUND api.replicate.com"
                         | _ => Resp false 500 (mkResp None "failed" ONone (Some ("E" ++ nat_str n)))
                         end) sample_video.

(** Every call throws. *)
Definition sample_throws_world : World :=
  sample_world (fun _ => Thrown "socket hang up") sample_video.

(** The primary answers 422, backup 1 throws, every later backup answers
    500 with an error. *)
Definition c2_world : World :=
  sample_world (fun n => match n with
                         | 0 => Resp false 422 (mkResp None "failed" ONone (Some "E0"))
                         | 1 => Thrown "socket hang up"
                         | _ => Resp false 500 (mkResp None "failed" ONone (Some ("E" ++ nat_str n)))
                         end) sample_video.

(** A video in the swap phase: the raw video is stored and [requestId] is
    the handle of the outstanding face-swap job. *)
Definition swap_phase_video : Video :=
  mkVideo 1 7 "a cat surfing" None "processing" None (Some "raw.mp4") None None
          (Some "swap-1").

(** Every poll of the swap job reports [failed], without an error text. *)
Definition swap_failed_world : World :=
  sample_world (fun _ => Resp true 200 (mkResp (Some "swap-1") "failed" ONone None))
               swap_phase_video.

(** Every poll of the swap job reports [failed] with an error text. *)
Definition swap_failed_error_world : World :=
  sample_world (fun _ => Resp true 200 (mkResp (Some "swap-1") "failed" ONone
                                              (Some "no face detected")))
               swap_phase_video.

(** The swap job has succeeded; any further submit is accepted. *)
Definition swap_succeeded_world : World :=
  sample_world (fun n => match n with
                         | 0 => Resp true 200 (mkResp (Some "swap-1") "succeeded"
                                                      (OStr "swapped.mp4") None)
                         | _ => Resp true 201 (ok_response "swap-2")
                         end) swap_phase_video.

(** A creation request of user 7 (who has a face image); the connection
    test and every other call succeed. *)
Definition create_request : VideoRequest := mkVideoRequest "a cat surfing" 7 None.

Definition connection_ok_world : World :=
  sample_world (fun _ => Resp true 200 (mkResp None "" ONone None)) sample_video.

(** The extraction job is accepted, polls twice as [processing], then
    reports [failed]. *)
Definition extraction_failed_world : World :=
  sample_world (fun n => match n with
                         | 0 => Resp true 201 (ok_response "ext-1")
                         | 1 | 2 => Resp true 200 (mkResp (Some "ext-1") "processing" ONone None)
                         | _ => Resp true 200 (mkResp (Some "ext-1") "failed" ONone
                                                     (Some "no face found"))
                         end) sample_video.

(** Every call answers 500 with an error. *)
Definition all_error_world : World :=
  sample_world (fun n => Resp false 500 (mkResp None "failed" ONone (Some ("E" ++ nat_str n))))
               sample_video.

(** The extraction job is accepted, polls once as [processing], then
    succeeds with an array output. *)
Definition extraction_ok_world : World :=
  sample_world (fun n => match n with
                         | 0 => Resp true 201 (ok_response "ext-1")
                         | 1 => Resp true 200 (mkResp (Some "ext-1") "processing" ONone None)
                         | _ => Resp true 200 (mkResp (Some "ext-1") "succeeded"
                                                     (OArr ["face-crop.png"]) None)
                         end) sample_video.

(** A users table holding [alice], and two sign-up bodies. *)
Definition users_db : UserDb :=
  mkUserDb [mkDbUser 1 "alice" "pw-alice" (Some "alice@example.com") None (Some "completed")] 2.

Definition alice_request : UserRequest := mkUserRequest "alice" "other" None.

Definition bob_request : UserRequest := mkUserRequest "bob" "secret" (Some "bob@example.com").

(** A pending upload of user 9, who is not in [users_db]. *)
Definition pending_upload : Upload := mkUpload 5 (Some 9) "upload.mp4" None "processing" None.

Definition sample_uploads (k : nat) : option Upload :=
  if Nat.eqb k 5 then Some pending_upload else None.

(** * Properties *)

(** ** Basic facts about the monad and the primitive operations *)

Lemma fetch_oracle (c : Call) (w : World) :
  oracle (snd (fetch c w)) = oracle w /\
  calls (snd (fetch c w)) = List.app (calls w) [c] /\
  ledger (snd (fetch c w)) = ledger w /\
  videos (snd (fetch c w)) = videos w.
Proof. unfold fetch; destruct (oracle w _); simpl; auto. Qed.

Lemma fetch_eq (c : Call) (w : World) :
  fetch c w =
  (match oracle w (List.length (calls w)) with
   | Thrown m => Exn m
   | Resp ok st d => Ok (ok, st, d)
   end,
   mkWorld (oracle w) (List.app (calls w) [c]) (ledger w) (videos w)
           (users w) (next_video_id w) (emails w) (now w) (token_set w) (mail_configured w) (mail_accepts w)).
Proof. unfold fetch; destruct (oracle w _); reflexivity. Qed.

(** ** C4: the payload shape of each backup model *)

(** The submit calls of [generateVideo]: the primary payload, then the
    payloads of a prefix of the backup list, in list order. *)
Lemma backup_loop_calls (prompt : string) (userId : nat) :
  forall models i errors w,
    exists k, k <= List.length models /\
      calls (snd (backup_loop prompt userId i models errors w)) =
      List.app (calls w)
        (map (fun m => Post REPLICATE_API_URL (backup_payload prompt m)) (firstn k models)).
Proof.
  induction models as [|m rest IH]; intros i errors w.
  - exists 0. simpl. rewrite app_nil_r. auto.
  - simpl. unfold bind at 1, backup_attempt, try_catch, bind.
    rewrite fetch_eq.
    destruct (oracle w (List.length (calls w))) as [msg|ok st d]; simpl.
    + match goal with |- context [backup_loop prompt userId (S i) rest ?e ?w'] =>
        destruct (IH (S i) e w') as [k [Hk Hc]] end.
      exists (S k). split; [lia|]. rewrite Hc. simpl. rewrite <- app_assoc. reflexivity.
    + destruct (ok && negb (truthy (r_error d))); simpl.
      * exists 1. split; [lia|]. reflexivity.
      * match goal with |- context [backup_loop prompt userId (S i) rest ?e ?w'] =>
          destruct (IH (S i) e w') as [k [Hk Hc]] end.
        exists (S k). split; [lia|]. rewrite Hc. simpl. rewrite <- app_assoc. reflexivity.
Qed.

Lemma generateVideo_calls (prompt : string) (userId : nat) (w : World) : exists k, k <= List.length BACKUP_VIDEO_MODELS /\
    calls (snd (generateVideo prompt userId w)) =
    List.app (calls w)
      (Post REPLICATE_API_URL (primary_payload prompt)
       :: map (fun m => Post REPLICATE_API_URL (backup_payload prompt m))
              (firstn k BACKUP_VIDEO_MODELS)).
Proof.
  unfold generateVideo, try_catch, bind at 1. rewrite fetch_eq.
  destruct (oracle w (List.length (calls w))) as [msg|ok st d]; cbn -[backup_loop].
  - exists 0. split; [simpl; lia | reflexivity].
  - destruct (is_error_response ok d); cbn -[backup_loop].
    + unfold bind.
      match goal with |- context [backup_loop prompt userId 0 BACKUP_VIDEO_MODELS ?e ?w'] =>
        destruct (backup_loop_calls prompt userId BACKUP_VIDEO_MODELS 0 e w') as [k [Hk Hc]];
        destruct (backup_loop prompt userId 0 BACKUP_VIDEO_MODELS e w') as [[[d'|errs]|m'] w1] eqn:E
      end; cbn -[backup_loop] in Hc |- *; exists k; split; auto; rewrite Hc; simpl; rewrite <- app_assoc; reflexivity.
    + exists 0. split; [simpl; lia | reflexivity].
Qed.

(** C4: every backup submit of the fallback chain carries the payload of
    [backup_payload], whose shape is chosen by substring match on the model
    id: ids containing "zeroscope" send only the prompt, ids containing
    "stability-ai" send the vendor fields, every other id sends the generic
    prompt, width, height, num_frames and fps. *)
Theorem backup_payload_shape (prompt : string) (userId : nat) (w : World) :
  (exists k, k <= List.length BACKUP_VIDEO_MODELS /\
    calls (snd (generateVideo prompt userId w)) =
    List.app (calls w)
      (Post REPLICATE_API_URL (primary_payload prompt)
       :: map (fun m => Post REPLICATE_API_URL (backup_payload prompt m))
              (firstn k BACKUP_VIDEO_MODELS))) /\
  (forall m, In m BACKUP_VIDEO_MODELS ->
     (includes "zeroscope" m = true ->
        input_keys (backup_payload prompt m) = ["prompt"]) /\
     (includes "stability-ai" m = true ->
        input_keys (backup_payload prompt m) =
        ["prompt"; "video_length"; "sizing_strategy"; "frames_per_second"]) /\
     (includes "zeroscope" m = false -> includes "stability-ai" m = false ->
        input_keys (backup_payload prompt m) =
        ["prompt"; "width"; "height"; "num_frames"; "fps"])).
Proof.
  split; [apply generateVideo_calls|].
  intros m Hm.
  destruct Hm as [<-|[<-|[<-|[<-|[]]]]];
    unfold backup_payload, input_keys; vm_compute;
    repeat split; intros; first [reflexivity | discriminate].
Qed.

(** ** C5: status checks of terminal videos *)

(** C5: for a video already [completed] or [failed], [GET /api/videos/:id]
    replies with the stored record unchanged and leaves the world as it was:
    no external call, no usage record, no store update; so repeated checks
    give the same reply. *)
Theorem get_video_terminal_idempotent (w : World) (id : nat) (v : Video)
    (Hv : videos w id = Some v) (Ht : is_terminal (v_status v) = true) :
  get_video id w = (Ok (mkReply 200 (BVideo v [])), w) /\
  get_video id (snd (get_video id w)) = get_video id w.
Proof.
  assert (H : get_video id w = (Ok (mkReply 200 (BVideo v [])), w)).
  { unfold get_video, try_catch, bind, getVideo. rewrite Hv. simpl. rewrite Ht. reflexivity. }
  split; [exact H|]. rewrite H. simpl. exact H.
Qed.

Lemma get_video_terminal_idempotent_witness :
  videos (sample_world (fun _ => Resp true 201 (ok_response "x")) sample_video) 1 = Some sample_video /\
  is_terminal (v_status sample_video) = true /\
  get_video 1 (sample_world (fun _ => Resp true 201 (ok_response "x")) sample_video) =
    (Ok (mkReply 200 (BVideo sample_video [])),
     sample_world (fun _ => Resp true 201 (ok_response "x")) sample_video).
Proof.
  split; [reflexivity|]. split; [reflexivity|].
  apply (get_video_terminal_idempotent
           (sample_world (fun _ => Resp true 201 (ok_response "x")) sample_video) 1 sample_video);
    reflexivity.
Defined.

(** ** The backup loop, attempt by attempt *)

Lemma string_app_assoc (a b c : string) : (a ++ b) ++ c = a ++ (b ++ c).
Proof. induction a as [|x a IH]; simpl; [reflexivity | now rewrite IH]. Qed.

Lemma backup_attempt_success (prompt : string) (userId i : nat) (m : string)
    (errors : list string) (w : World) (st : nat) (d : ReplicateResponse) :
  oracle w (List.length (calls w)) = Resp true st d ->
  truthy (r_error d) = false ->
  exists w', backup_attempt prompt userId i m errors w = (Ok (inl d), w') /\
    oracle w' = oracle w /\
    calls w' = List.app (calls w) [Post REPLICATE_API_URL (backup_payload prompt m)] /\
    List.length (ledger w') = S (List.length (ledger w)).
Proof.
  intros Ho He. unfold backup_attempt, try_catch, bind. rewrite fetch_eq, Ho.
  simpl. rewrite He. simpl. eexists. repeat split. simpl. rewrite length_app. simpl. lia.
Qed.

Lemma backup_attempt_failure (prompt : string) (userId i : nat) (m : string)
    (errors : list string) (w : World) :
  attempt_fails (oracle w (List.length (calls w))) = true ->
  exists w', backup_attempt prompt userId i m errors w =
    (Ok (inr (List.app errors
               [attempt_label (S i) (oracle w (List.length (calls w))) ++
                failure_reason (oracle w (List.length (calls w)))])), w') /\
    oracle w' = oracle w /\
    calls w' = List.app (calls w) [Post REPLICATE_API_URL (backup_payload prompt m)] /\
    videos w' = videos w.
Proof.
  intros Hf. unfold backup_attempt, try_catch, bind. rewrite fetch_eq.
  destruct (oracle w (List.length (calls w))) as [msg|ok st d] eqn:Ho; simpl in Hf |- *.
  - eexists. rewrite Nat.add_1_r. simpl. rewrite !string_app_assoc. repeat split.
  - unfold is_error_response in Hf.
    replace (ok && negb (truthy (r_error d))) with false
      by (destruct ok, (truthy (r_error d)); simpl in *; congruence).
    simpl. eexists. rewrite Nat.add_1_r. simpl. rewrite !string_app_assoc. repeat split.
Qed.

Lemma backup_loop_first_success (prompt : string) (userId : nat) :
  forall models i errors w k st d,
    k < List.length models ->
    (forall j, j < k -> attempt_fails (oracle w (List.length (calls w) + j)) = true) ->
    oracle w (List.length (calls w) + k) = Resp true st d ->
    truthy (r_error d) = false ->
    exists w', backup_loop prompt userId i models errors w = (Ok (inl d), w') /\
      calls w' = List.app (calls w)
        (map (fun m => Post REPLICATE_API_URL (backup_payload prompt m)) (firstn (S k) models)).
Proof.
  induction models as [|m rest IH]; intros i errors w k st d Hk Hf Hs He; simpl in Hk; [lia|].
  simpl backup_loop. unfold bind at 1.
  destruct k as [|k].
  - rewrite Nat.add_0_r in Hs.
    destruct (backup_attempt_success prompt userId i m errors w st d Hs He)
      as [w' [E [_ [Hc _]]]].
    rewrite E. exists w'. split; [reflexivity|]. rewrite Hc. reflexivity.
  - assert (H0 : attempt_fails (oracle w (List.length (calls w))) = true).
    { rewrite <- (Nat.add_0_r (List.length (calls w))). apply Hf. lia. }
    destruct (backup_attempt_failure prompt userId i m errors w H0) as [w1 [E [Ho [Hc _]]]].
    rewrite E.
    assert (Hl : List.length (calls w1) = S (List.length (calls w)))
      by (rewrite Hc, length_app; simpl; lia).
    destruct (IH (S i) (List.app errors
               [attempt_label (S i) (oracle w (List.length (calls w))) ++
                failure_reason (oracle w (List.length (calls w)))]) w1 k st d) as [w' [E' Hc']].
    + lia.
    + intros j Hj. rewrite Ho, Hl. replace (S (List.length (calls w)) + j)
        with (List.length (calls w) + S j) by lia. apply Hf. lia.
    + rewrite Ho, Hl. rewrite <- Hs. f_equal. lia.
    + exact He.
    + exists w'. split; [exact E'|]. rewrite Hc', Hc. rewrite <- app_assoc. reflexivity.
Qed.

Lemma backup_loop_all_fail (prompt : string) (userId : nat) :
  forall models i errors w,
    (forall j, j < List.length models ->
       attempt_fails (oracle w (List.length (calls w) + j)) = true) ->
    exists w', backup_loop prompt userId i models errors w =
      (Ok (inr (List.app errors
         (map (fun j => attempt_label (S (i + j)) (oracle w (List.length (calls w) + j)) ++
                        failure_reason (oracle w (List.length (calls w) + j)))
              (seq 0 (List.length models))))), w') /\
      oracle w' = oracle w /\
      calls w' = List.app (calls w)
        (map (fun m => Post REPLICATE_API_URL (backup_payload prompt m)) models).
Proof.
  induction models as [|m rest IH]; intros i errors w Hf.
  - exists w. simpl. rewrite !app_nil_r. auto.
  - simpl backup_loop. unfold bind at 1.
    assert (H0 : attempt_fails (oracle w (List.length (calls w))) = true).
    { rewrite <- (Nat.add_0_r (List.length (calls w))). apply Hf. simpl. lia. }
    destruct (backup_attempt_failure prompt userId i m errors w H0) as [w1 [E [Ho [Hc _]]]].
    rewrite E.
    assert (Hl : List.length (calls w1) = S (List.length (calls w)))
      by (rewrite Hc, length_app; simpl; lia).
    destruct (IH (S i) (List.app errors
               [attempt_label (S i) (oracle w (List.length (calls w))) ++
                failure_reason (oracle w (List.length (calls w)))]) w1) as [w' [E' [Ho' Hc']]].
    { intros j Hj. rewrite Ho, Hl. replace (S (List.length (calls w)) + j)
        with (List.length (calls w) + S j) by lia. apply Hf. simpl. lia. }
    exists w'. split; [|split].
    + rewrite E'. do 3 f_equal. simpl length. simpl seq. rewrite <- seq_shift.
      simpl map. rewrite map_map, <- app_assoc. simpl. rewrite !Nat.add_0_r.
      do 2 f_equal. apply map_ext. intro j. rewrite Ho, Hl.
      replace (S (i + S j)) with (S (S i + j)) by lia.
      replace (List.length (calls w) + S j) with (S (List.length (calls w)) + j) by lia.
      reflexivity.
    + rewrite Ho', Ho. reflexivity.
    + rewrite Hc', Hc. rewrite <- app_assoc. reflexivity.
Qed.

(** ** C1 and C2: the fallback chain of [generateVideo] *)

(** The fallback chain: when the primary submit answers with an error
    response (a non-OK status or an [error] field), [generateVideo] submits
    to the backups in the order of [BACKUP_VIDEO_MODELS] and returns the
    response of the first backup whose submit succeeds: with backup [k]
    (1-indexed) the first to succeed, exactly 1 primary and [k] backup
    submits are made, in order, and backup [k]'s response is returned. *)
Theorem generateVideo_first_backup_success (prompt : string) (userId : nat) (w : World)
    (k : nat) (ok0 : bool) (st0 st : nat) (d0 d : ReplicateResponse)
    (Hk : 1 <= k <= List.length BACKUP_VIDEO_MODELS)
    (Hp : oracle w (List.length (calls w)) = Resp ok0 st0 d0)
    (Hpe : is_error_response ok0 d0 = true)
    (Hf : forall j, 1 <= j < k ->
            attempt_fails (oracle w (List.length (calls w) + j)) = true)
    (Hs : oracle w (List.length (calls w) + k) = Resp true st d)
    (He : truthy (r_error d) = false) :
  exists w', generateVideo prompt userId w = (Ok d, w') /\
    calls w' = List.app (calls w)
      (Post REPLICATE_API_URL (primary_payload prompt)
       :: map (fun m => Post REPLICATE_API_URL (backup_payload prompt m))
              (firstn k BACKUP_VIDEO_MODELS)).
Proof.
  unfold generateVideo, try_catch, bind at 1. rewrite fetch_eq, Hp.
  cbn -[backup_loop]. rewrite Hpe. cbn -[backup_loop]. unfold bind.
  match goal with |- context [backup_loop prompt userId 0 BACKUP_VIDEO_MODELS ?e ?w1] =>
    destruct (backup_loop_first_success prompt userId BACKUP_VIDEO_MODELS 0 e w1 (k - 1) st d)
      as [w' [E Hc]] end.
  - lia.
  - intros j Hj. simpl. rewrite length_app. simpl.
    replace (List.length (calls w) + 1 + j) with (List.length (calls w) + S j) by lia.
    apply Hf. lia.
  - simpl. rewrite length_app. simpl. rewrite <- Hs. f_equal. lia.
  - exact He.
  - rewrite E. exists w'. split; [reflexivity|].
    rewrite Hc. cbn [calls]. rewrite <- app_assoc.
    replace (S (k - 1)) with k by lia. reflexivity.
Qed.

Lemma generateVideo_first_backup_success_witness :
  exists w', generateVideo "a cat surfing" 7 c1_world = (Ok (ok_response "backup-2"), w') /\
    calls w' = List.app (calls c1_world)
      (Post REPLICATE_API_URL (primary_payload "a cat surfing")
       :: map (fun m => Post REPLICATE_API_URL (backup_payload "a cat surfing" m))
              (firstn 2 BACKUP_VIDEO_MODELS)).
Proof.
  apply (generateVideo_first_backup_success "a cat surfing" 7 c1_world 2 false 422 201
           (mkResp None "failed" ONone (Some "E0")) (ok_response "backup-2")).
  - simpl. lia.
  - reflexivity.
  - reflexivity.
  - intros j Hj. assert (j = 1) by lia. subst j. reflexivity.
  - reflexivity.
  - reflexivity.
Defined.

(** C1 (code defect): a primary submit that fails by throwing (transport
    or JSON decoding) is not followed by any backup. The [catch] of
    [generateVideo] records the error and rethrows, after that single submit,
    whereas the backup loop catches a thrown submit and goes on to the next
    model. *)
Theorem generateVideo_primary_throw_no_fallback (prompt : string) (userId : nat) (w : World)
    (m : string)
    (Hp : oracle w (List.length (calls w)) = Thrown m) :
  generateVideo prompt userId w =
    (Exn m, mkWorld (oracle w)
                    (List.app (calls w) [Post REPLICATE_API_URL (primary_payload prompt)])
                    (List.app (ledger w)
                       [mkUsage userId "replicate/stable-video-diffusion" None "error" (Some m)])
                    (videos w) (users w) (next_video_id w) (emails w) (now w)
                    (token_set w) (mail_configured w) (mail_accepts w)).
Proof.
  unfold generateVideo, try_catch, bind. cbv zeta. rewrite fetch_eq, Hp. reflexivity.
Qed.

(** The primary submit throws while backup 1 would have accepted the job. *)
Lemma generateVideo_primary_throw_no_fallback_witness :
  oracle primary_throws_world 1 = Resp true 201 (ok_response "backup-1") /\
  generateVideo "a cat surfing" 7 primary_throws_world =
    (Exn "getaddrinfo ENOTFOUND api.replicate.com",
     mkWorld (oracle primary_throws_world)
             [Post REPLICATE_API_URL (primary_payload "a cat surfing")]
             [mkUsage 7 "replicate/stable-video-diffusion" None "error"
                      (Some "getaddrinfo ENOTFOUND api.replicate.com")]
             (videos primary_throws_world) (users primary_throws_world)
             (next_video_id primary_throws_world) (emails primary_throws_world)
             (now primary_throws_world) (token_set primary_throws_world)
             (mail_configured primary_throws_world) (mail_accepts primary_throws_world)).
Proof.
  split; [reflexivity|].
  exact (generateVideo_primary_throw_no_fallback "a cat surfing" 7 primary_throws_world
           "getaddrinfo ENOTFOUND api.replicate.com" eq_refl).
Defined.

(** The fallback chain: when the primary submit answers with an error
    response and every backup fails (error response or exception),
    [generateVideo] raises one error whose message is
    "All video generation models failed: " followed by the N+1 entries
    joined by ", ": entry [j] is the label of attempt [j] followed by its
    failure reason, the primary first, then the backups in list order. *)
Theorem generateVideo_all_fail_message (prompt : string) (userId : nat) (w : World)
    (ok0 : bool) (st0 : nat) (d0 : ReplicateResponse)
    (Hp : oracle w (List.length (calls w)) = Resp ok0 st0 d0)
    (Hpe : is_error_response ok0 d0 = true)
    (Hf : forall j, 1 <= j <= List.length BACKUP_VIDEO_MODELS ->
            attempt_fails (oracle w (List.length (calls w) + j)) = true) :
  fst (generateVideo prompt userId w) =
  Exn (all_failed_message
         (map (fun j => attempt_label j (oracle w (List.length (calls w) + j)) ++
                        failure_reason (oracle w (List.length (calls w) + j)))
              (seq 0 (S (List.length BACKUP_VIDEO_MODELS))))).
Proof.
  match goal with |- _ = ?R => remember R as RHS eqn:HR end.
  unfold generateVideo, try_catch, bind at 1. rewrite fetch_eq, Hp.
  cbn -[backup_loop]. rewrite Hpe. cbn -[backup_loop]. unfold bind.
  match goal with |- context [backup_loop prompt userId 0 BACKUP_VIDEO_MODELS ?e ?w1] =>
    destruct (backup_loop_all_fail prompt userId BACKUP_VIDEO_MODELS 0 e w1)
      as [w' [E _]] end.
  - intros j Hj. simpl. rewrite length_app. simpl.
    replace (List.length (calls w) + 1 + j) with (List.length (calls w) + S j) by lia.
    apply Hf. lia.
  - rewrite E. subst RHS. simpl. rewrite !length_app. rewrite ?Nat.add_0_r, Hp. simpl.
    rewrite <- !Nat.add_assoc. simpl. reflexivity.
Qed.

Lemma generateVideo_all_fail_message_witness :
  fst (generateVideo "a cat surfing" 7 c2_world) =
  Exn (all_failed_message
         (map (fun j => attempt_label j (oracle c2_world (List.length (calls c2_world) + j)) ++
                        failure_reason (oracle c2_world (List.length (calls c2_world) + j)))
              (seq 0 (S (List.length BACKUP_VIDEO_MODELS))))).
Proof.
  apply (generateVideo_all_fail_message "a cat surfing" 7 c2_world false 422
           (mkResp None "failed" ONone (Some "E0"))).
  - reflexivity.
  - reflexivity.
  - intros j Hj. simpl in Hj.
    destruct j as [|[|[|[|[|j]]]]]; try lia; reflexivity.
Defined.

(** C2 (code defect): when the primary submit throws, no backup is tried
    (one submit in all) and the raised error is the primary's exception
    unchanged, not the aggregate of the attempts' failure reasons. *)
Theorem generateVideo_primary_throw_no_aggregate (prompt : string) (userId : nat) (w : World)
    (m : string)
    (Hp : oracle w (List.length (calls w)) = Thrown m) :
  fst (generateVideo prompt userId w) = Exn m /\
  calls (snd (generateVideo prompt userId w)) =
    List.app (calls w) [Post REPLICATE_API_URL (primary_payload prompt)].
Proof.
  unfold generateVideo, try_catch, bind. cbv zeta. rewrite fetch_eq, Hp.
  split; reflexivity.
Qed.

(** Every backup would have failed with its own reason ([E1] for backup 1),
    which the raised message leaves out. *)
Lemma generateVideo_primary_throw_no_aggregate_witness :
  oracle primary_throws_all_fail_world 1 =
    Resp false 500 (mkResp None "failed" ONone (Some "E1")) /\
  includes "E1" "getaddrinfo ENOTFOUND api.replicate.com" = false /\
  fst (generateVideo "a cat surfing" 7 primary_throws_all_fail_world) =
    Exn "getaddrinfo ENOTFOUND api.replicate.com" /\
  calls (snd (generateVideo "a cat surfing" 7 primary_throws_all_fail_world)) =
    List.app (calls primary_throws_all_fail_world)
             [Post REPLICATE_API_URL (primary_payload "a cat surfing")].
Proof.
  split; [reflexivity|]. split; [reflexivity|].
  exact (generateVideo_primary_throw_no_aggregate "a cat surfing" 7
           primary_throws_all_fail_world "getaddrinfo ENOTFOUND api.replicate.com" eq_refl).
Defined.

(** ** C6 and C7: the swap phase of [GET /api/videos/:id] *)

(** C6 (code run): in the swap phase the outstanding job is first polled
    through [checkVideoStatus], whose [failed] branch precedes the swap-phase
    branch. A failed swap job therefore marks the video [failed] (without an
    error text) or, with an error text, makes [checkVideoStatus] throw and
    leaves the video [processing]; the fallback to [rawVideoUrl] with
    status [completed] is never reached. *)
Theorem swap_failure_not_degraded :
  option_map v_status (videos (snd (get_video 1 swap_failed_world)) 1) = Some "failed" /\
  option_map v_videoUrl (videos (snd (get_video 1 swap_failed_world)) 1) = Some None /\
  option_map v_status (videos (snd (get_video 1 swap_failed_error_world)) 1) = Some "processing" /\
  option_map v_videoUrl (videos (snd (get_video 1 swap_failed_error_world)) 1) = Some None /\
  fst (get_video 1 swap_failed_error_world) =
    Ok (mkReply 200 (BVideo swap_phase_video
          [("error", JStr "Replicate status check API error: no face detected")])).
Proof. vm_compute. repeat split. Qed.

(** C7 (code run): when the swap job has succeeded, the first poll through
    [checkVideoStatus] takes the generation-phase branch: a second face swap
    is submitted on the swapped output, [rawVideoUrl] and [requestId] are
    overwritten, the video stays [processing] and no email is sent. *)
Theorem swap_success_restarts_swap :
  calls (snd (get_video 1 swap_succeeded_world)) =
    [Get (REPLICATE_API_URL ++ "/swap-1");
     Post REPLICATE_API_URL (swap_payload (Some "swapped.mp4") "face.png")] /\
  videos (snd (get_video 1 swap_succeeded_world)) 1 =
    Some (mkVideo 1 7 "a cat surfing" None "processing" None (Some "swapped.mp4") None None
                  (Some "swap-2")) /\
  emails (snd (get_video 1 swap_succeeded_world)) = [].
Proof. vm_compute. repeat split. Qed.

(** ** Frame lemmas *)

Section Frames.

Context {A B : Type}.

Lemma keeps_ret (a : A) : keeps_videos (ret a).
Proof. intro w; reflexivity. Qed.

Lemma keeps_throw (m : string) : keeps_videos (@throw A m).
Proof. intro w; reflexivity. Qed.

Lemma keeps_bind (c : M A) (k : A -> M B) :
  keeps_videos c -> (forall a, keeps_videos (k a)) -> keeps_videos (bind c k).
Proof.
  intros Hc Hk w. unfold bind. specialize (Hc w).
  destruct (c w) as [[a|m] w1]; simpl in *; [rewrite Hk|]; auto.
Qed.

Lemma keeps_try (c : M A) (h : string -> M A) :
  keeps_videos c -> (forall m, keeps_videos (h m)) -> keeps_videos (try_catch c h).
Proof.
  intros Hc Hh w. unfold try_catch. specialize (Hc w).
  destruct (c w) as [[a|m] w1]; simpl in *; [|rewrite Hh]; auto.
Qed.

Lemma never_raises_ret (a : A) : never_raises (ret a).
Proof. intro w. exists a, w. reflexivity. Qed.

Lemma never_raises_bind (c : M A) (k : A -> M B) :
  never_raises c -> (forall a, never_raises (k a)) -> never_raises (bind c k).
Proof.
  intros Hc Hk w. unfold bind. destruct (Hc w) as [a [w1 E]]. rewrite E. apply Hk.
Qed.

Lemma never_raises_raise_keeps (c : M A) : never_raises c -> raise_keeps_videos c.
Proof. intros Hc w m w' E. destruct (Hc w) as [a [w1 E']]. congruence. Qed.

Lemma raise_keeps_bind (c : M A) (k : A -> M B) :
  keeps_videos c -> (forall a, raise_keeps_videos (k a)) -> raise_keeps_videos (bind c k).
Proof.
  intros Hc Hk w m w' E. unfold bind in E. specialize (Hc w).
  destruct (c w) as [[a|m'] w1]; simpl in *.
  - rewrite <- Hc. exact (Hk a w1 m w' E).
  - inversion E; subst. exact Hc.
Qed.

End Frames.

Lemma keeps_fetch (c : Call) : keeps_videos (fetch c).
Proof. intro w. apply fetch_oracle. Qed.

Lemma keeps_track u e r s m : keeps_videos (trackApiUsage u e r s m).
Proof. intro w. reflexivity. Qed.

Lemma keeps_getUser (id : nat) : keeps_videos (getUser id).
Proof. intro w. reflexivity. Qed.

Lemma never_raises_getUser (id : nat) : never_raises (getUser id).
Proof. intro w. eexists; eexists; reflexivity. Qed.

Lemma never_raises_updateVideo (id : nat) (p : Video -> Video) : never_raises (updateVideo id p).
Proof. intro w. unfold updateVideo. destruct (videos w id); eexists; eexists; reflexivity. Qed.

Lemma never_raises_notify (uid : nat) (v : option Video) : never_raises (notify_completion uid v).
Proof.
  unfold notify_completion. apply never_raises_bind; [apply never_raises_getUser|].
  intros [u|]; [|apply never_raises_ret]. destruct v as [v|]; [|apply never_raises_ret].
  destruct (truthy (us_email u)); [|apply never_raises_ret].
  apply never_raises_bind; [|intros; apply never_raises_ret].
  unfold sendVideoGenerationCompleteNotification.
  destruct (if truthy (v_notificationEmail v) then v_notificationEmail v else us_email u)
    as [addr|] eqn:E; [|apply never_raises_ret].
  destruct (truthy (Some addr)); [|apply never_raises_ret].
  intro w. unfold sendEmail. destruct (mail_configured w && mail_accepts w addr (v_id v));
    eexists; eexists; reflexivity.
Qed.

Create HintDb frames.
#[local] Hint Resolve keeps_ret keeps_throw keeps_fetch keeps_track keeps_getUser
  never_raises_ret never_raises_getUser never_raises_updateVideo never_raises_notify : frames.

(** Split [keeps_videos] and [never_raises] goals along the code. *)
Ltac frame_step :=
  match goal with
  | |- keeps_videos (bind _ _) => apply keeps_bind; [|intro]
  | |- keeps_videos (try_catch _ _) => apply keeps_try; [|intro]
  | |- never_raises (bind _ _) => apply never_raises_bind; [|intro]
  | |- _ (if ?b then _ else _) => destruct b
  | |- _ (match ?x with _ => _ end) => destruct x
  | |- _ => solve [eauto with frames]
  end.

Lemma keeps_checkVideoStatus (rid : string) (uid : nat) : keeps_videos (checkVideoStatus rid uid).
Proof. unfold checkVideoStatus. repeat frame_step. Qed.

Lemma keeps_swapFace (t : option string) (s : string) (uid : nat) : keeps_videos (swapFace t s uid).
Proof. unfold swapFace. repeat frame_step. Qed.

Lemma keeps_checkFaceSwapStatus (rid : string) (uid : nat) :
  keeps_videos (checkFaceSwapStatus rid uid).
Proof. unfold checkFaceSwapStatus. repeat frame_step. Qed.

#[local] Hint Resolve keeps_checkVideoStatus keeps_swapFace keeps_checkFaceSwapStatus : frames.

Ltac raise_keeps_step :=
  match goal with
  | |- raise_keeps_videos (bind _ _) =>
      first [ apply raise_keeps_bind; [solve [eauto with frames] | intro]
            | apply never_raises_raise_keeps; repeat frame_step ]
  | |- raise_keeps_videos (ret _) => apply never_raises_raise_keeps, never_raises_ret
  | |- raise_keeps_videos (if ?b then _ else _) => destruct b
  | |- raise_keeps_videos (match ?x with _ => _ end) => destruct x
  | |- raise_keeps_videos (let _ := _ in _) => cbv zeta
  end.

(** When the inner [try] block of the status check throws, it has not
    touched the stored videos: every store update of the block comes after
    the last call that can throw. *)
Lemma raise_keeps_check_upstream (video : Video) : raise_keeps_videos (check_upstream video).
Proof. unfold check_upstream, swap_phase, updateVideoStatus. repeat raise_keeps_step. Qed.

(** ** C8: errors while checking upstream status *)

Lemma checkVideoStatus_error_field (rid : string) (uid : nat) (w : World)
    (ok : bool) (st : nat) (d : ReplicateResponse) :
  oracle w (List.length (calls w)) = Resp ok st d ->
  truthy (r_error d) = true ->
  fst (checkVideoStatus rid uid w) = Exn ("Replicate status check API error: " ++ error_reason st d).
Proof.
  intros Ho He. unfold checkVideoStatus, try_catch, bind. rewrite fetch_eq, Ho.
  unfold is_error_response. rewrite He, orb_true_r. reflexivity.
Qed.

(** C8: for a video that is not [completed] or [failed], any exception
    raised while checking its upstream status (including a poll answer that
    carries an [error] field, on which [checkVideoStatus] throws) is caught:
    the reply is the stored video annotated with the error message, and the
    stored videos are left as they were, so the status is not flipped. *)
Theorem get_video_check_error_annotates (w : World) (id : nat) (v : Video)
    (Hv : videos w id = Some v) (Ht : is_terminal (v_status v) = false) :
  (forall m w1, check_upstream v w = (Exn m, w1) ->
     get_video id w = (Ok (mkReply 200 (BVideo v [("error", JStr m)])), w1) /\
     videos w1 = videos w) /\
  (forall rid ok st d,
     v_requestId v = Some rid -> truthy (Some rid) = true ->
     oracle w (List.length (calls w)) = Resp ok st d -> truthy (r_error d) = true ->
     fst (get_video id w) =
       Ok (mkReply 200 (BVideo v [("error", JStr ("Replicate status check API error: " ++
                                                  error_reason st d))])) /\
     videos (snd (get_video id w)) = videos w).
Proof.
  assert (Hmain : forall m w1, check_upstream v w = (Exn m, w1) ->
     get_video id w = (Ok (mkReply 200 (BVideo v [("error", JStr m)])), w1) /\
     videos w1 = videos w).
  { intros m w1 E. split.
    - unfold get_video, try_catch at 1, bind, getVideo. rewrite Hv. cbn -[check_upstream].
      rewrite Ht. cbn -[check_upstream]. unfold try_catch. rewrite E. reflexivity.
    - exact (raise_keeps_check_upstream v w m w1 E). }
  split; [exact Hmain|].
  intros rid ok st d Hr Hrt Ho He.
  assert (E : exists w1, check_upstream v w =
            (Exn ("Replicate status check API error: " ++ error_reason st d), w1)).
  { unfold check_upstream. rewrite Hr, Hrt. cbn -[checkVideoStatus]. unfold bind.
    pose proof (checkVideoStatus_error_field rid (v_userId v) w ok st d Ho He) as Hc.
    destruct (checkVideoStatus rid (v_userId v) w) as [r w1]. simpl in Hc. subst r.
    exists w1. reflexivity. }
  destruct E as [w1 E]. destruct (Hmain _ _ E) as [Hg Hs]. rewrite Hg. auto.
Qed.

Lemma get_video_check_error_annotates_witness :
  fst (get_video 1 swap_failed_error_world) =
    Ok (mkReply 200 (BVideo swap_phase_video
          [("error", JStr ("Replicate status check API error: " ++
                           error_reason 200 (mkResp (Some "swap-1") "failed" ONone
                                                    (Some "no face detected"))))])) /\
  videos (snd (get_video 1 swap_failed_error_world)) = videos swap_failed_error_world.
Proof.
  apply (proj2 (get_video_check_error_annotates swap_failed_error_world 1 swap_phase_video
                  eq_refl eq_refl) "swap-1" true 200
                  (mkResp (Some "swap-1") "failed" ONone (Some "no face detected")));
    reflexivity.
Defined.

(** ** C9: creating a video *)

(** C9 (code defect): for every request of a user with a non-empty
    [faceImageUrl], the insert of the new video is rejected, since the row
    lacks the [NOT NULL] columns [video_url] and [status]. The handler answers
    500 "Failed to generate video" with the world as it was: no video stored,
    no provider call, no usage record, no handle. *)
Theorem post_videos_insert_rejected (q : VideoRequest) (w : World) (u : User)
    (Hu : users w (q_userId q) = Some u)
    (Hf : truthy (us_faceImageUrl u) = true) :
  post_videos q w = (Ok (mkReply 500 (BObj [("message", JStr "Failed to generate video")])), w).
Proof.
  unfold post_videos, post_videos_try, try_catch, bind, getUser, createVideo.
  cbn beta. rewrite Hu. cbv iota. rewrite Hf. reflexivity.
Qed.

Lemma post_videos_insert_rejected_witness :
  post_videos create_request connection_ok_world =
    (Ok (mkReply 500 (BObj [("message", JStr "Failed to generate video")])), connection_ok_world).
Proof.
  exact (post_videos_insert_rejected create_request connection_ok_world sample_user
           eq_refl eq_refl).
Defined.

(** ** C10: [extractFace] never raises *)

(** The [catch] block of [extractFace] answers the placeholder. *)
Lemma extractFace_fst (videoData : string) (userId : nat) (w : World) :
  fst (extractFace videoData userId w) =
  match fst (extractFace_try videoData userId w) with
  | Ok u => Ok u
  | Exn _ => Ok PLACEHOLDER_FACE_URL
  end.
Proof.
  unfold extractFace, try_catch.
  destruct (extractFace_try videoData userId w) as [[u|m] w']; reflexivity.
Qed.

(** The polling loop, from a world whose next call is poll 0: if the polls
    stay pending, or stay pending until one fails, the loop raises, reports a
    failed job, runs out of attempts, or hands over an empty output array. *)
Lemma extract_poll_fails (userId : nat) (extractionId : option string) :
  forall fuel w,
    (forall i, i < fuel -> poll_pending (oracle w (List.length (calls w) + i)) = true) \/
    (exists j, j < fuel /\
       (forall i, i < j -> poll_pending (oracle w (List.length (calls w) + i)) = true) /\
       poll_fails (oracle w (List.length (calls w) + j))) ->
    match fst (extract_poll userId extractionId fuel w) with
    | Ok (Extracted d) => r_output d = OArr []
    | _ => True
    end.
Proof.
  induction fuel as [|f IH]; intros w H; [exact I|].
  cbn [extract_poll]. unfold bind at 1. rewrite fetch_eq.
  set (w1 := mkWorld _ _ _ _ _ _ _ _ _ _ _).
  assert (Hshift : forall i, oracle w1 (List.length (calls w1) + i) =
                             oracle w (List.length (calls w) + S i)).
  { intros i. cbn [w1 oracle calls]. rewrite length_app. cbn [List.length].
    f_equal. lia. }
  destruct (oracle w (List.length (calls w))) as [m|ok st d] eqn:Ho; [exact I|].
  cbv iota beta.
  destruct H as [Hall | (j & Hj & Hpre & Hf)].
  - pose proof (Hall 0 ltac:(lia)) as H0. rewrite Nat.add_0_r, Ho in H0.
    cbn [poll_pending] in H0. apply andb_prop in H0 as [H1 H2].
    apply negb_true_iff in H1, H2. rewrite H1, H2.
    apply IH. left. intros i Hi. rewrite Hshift. apply Hall. lia.
  - destruct j as [|j].
    + rewrite Nat.add_0_r, Ho in Hf. cbn [poll_fails] in Hf.
      destruct d as [id s out e]; cbn [r_status r_output] in Hf |- *.
      destruct Hf as [-> | [-> ->]]; reflexivity.
    + pose proof (Hpre 0 ltac:(lia)) as H0. rewrite Nat.add_0_r, Ho in H0.
      cbn [poll_pending] in H0. apply andb_prop in H0 as [H1 H2].
      apply negb_true_iff in H1, H2. rewrite H1, H2.
      apply IH. right. exists j. split; [lia|]. split.
      * intros i Hi. rewrite Hshift. apply Hpre. lia.
      * rewrite Hshift. exact Hf.
Qed.

(** On every failure path the [try] block raises or answers the
    placeholder. *)
Lemma extractFace_try_fails (videoData : string) (userId : nat) (w : World) :
  extraction_fails (oracle w) (List.length (calls w)) ->
  match fst (extractFace_try videoData userId w) with
  | Ok u => u = PLACEHOLDER_FACE_URL
  | Exn _ => True
  end.
Proof.
  intros H. unfold extractFace_try. cbv zeta. unfold bind at 1. rewrite fetch_eq.
  set (w1 := mkWorld _ _ _ _ _ _ _ _ _ _ _).
  destruct H as [Hs | [Hs Hp]];
    destruct (oracle w (List.length (calls w))) as [m|ok st d] eqn:Ho;
    try exact I; cbn [attempt_fails] in Hs; rewrite Hs; [reflexivity|].
  unfold bind at 1.
  pose proof (extract_poll_fails userId (r_id d) maxAttempts w1) as HP.
  assert (Hshift : forall i, oracle w1 (List.length (calls w1) + i) =
                             oracle w (List.length (calls w) + 1 + i)).
  { intros i. cbn [w1 oracle calls]. rewrite length_app. reflexivity. }
  destruct (extract_poll userId (r_id d) maxAttempts w1) as [[[r| |]|m] w2].
  - cbn [fst] in HP. rewrite HP.
    + exact I.
    + destruct Hp as [Hall | (j & Hj & Hpre & Hf)].
      * left. intros i Hi. rewrite Hshift. auto.
      * right. exists j. split; [exact Hj|]. split.
        -- intros i Hi. rewrite Hshift. auto.
        -- rewrite Hshift. exact Hf.
  - reflexivity.
  - reflexivity.
  - exact I.
Qed.

(** C10: [extractFace] is total: on every input it returns some URL and
    never raises; when the extraction fails (a failed submit, a failed job, a
    poll that throws, a success with an empty output, or 20 polls without a
    result) that URL is the fixed placeholder. *)
Theorem extractFace_total (videoData : string) (userId : nat) (w : World) :
  (exists url, fst (extractFace videoData userId w) = Ok url) /\
  (extraction_fails (oracle w) (List.length (calls w)) ->
   fst (extractFace videoData userId w) = Ok PLACEHOLDER_FACE_URL).
Proof.
  rewrite extractFace_fst. split.
  - destruct (fst (extractFace_try videoData userId w)) as [u|m]; eauto.
  - intros H. pose proof (extractFace_try_fails videoData userId w H) as HT.
    destruct (fst (extractFace_try videoData userId w)) as [u|m]; [subst|]; reflexivity.
Qed.

Lemma extractFace_total_witness :
  extraction_fails (oracle extraction_failed_world) (List.length (calls extraction_failed_world)) /\
  fst (extractFace "video.mp4" 7 extraction_failed_world) = Ok PLACEHOLDER_FACE_URL.
Proof.
  assert (H : extraction_fails (oracle extraction_failed_world)
                (List.length (calls extraction_failed_world))).
  { right. split; [reflexivity|]. right. exists 2. split; [unfold maxAttempts; lia|]. split.
    - intros i Hi. destruct i as [|[|i]]; [reflexivity | reflexivity | lia].
    - cbn. left. reflexivity. }
  split; [exact H|].
  exact (proj2 (extractFace_total "video.mp4" 7 extraction_failed_world) H).
Defined.

(** ** C3: usage records per provider call *)

Lemma length_snoc {A} (l : list A) (x : A) : List.length (List.app l [x]) = S (List.length l).
Proof. rewrite length_app. simpl. lia. Qed.

Ltac counts := cbn [fst snd calls ledger oracle]; rewrite ?length_snoc; try lia.

Lemma backup_attempt_counts (prompt : string) (userId i : nat) (m : string)
    (errors : list string) (w : World) :
  (forall j msg, oracle w j <> Thrown msg) ->
  oracle (snd (backup_attempt prompt userId i m errors w)) = oracle w /\
  List.length (calls (snd (backup_attempt prompt userId i m errors w))) = S (List.length (calls w)) /\
  List.length (ledger (snd (backup_attempt prompt userId i m errors w))) = S (List.length (ledger w)).
Proof.
  intros H. unfold backup_attempt, try_catch, bind. rewrite fetch_eq.
  destruct (oracle w (List.length (calls w))) as [msg|ok st d] eqn:Ho;
    [exfalso; eapply H; exact Ho|].
  destruct (ok && negb (truthy (r_error d))); unfold trackApiUsage, ret; counts; auto.
Qed.

Lemma backup_loop_counts (prompt : string) (userId : nat) :
  forall models i errors w,
    (forall j msg, oracle w j <> Thrown msg) ->
    oracle (snd (backup_loop prompt userId i models errors w)) = oracle w /\
    exists k,
      List.length (calls (snd (backup_loop prompt userId i models errors w))) =
        List.length (calls w) + k /\
      List.length (ledger (snd (backup_loop prompt userId i models errors w))) =
        List.length (ledger w) + k.
Proof.
  induction models as [|m rest IH]; intros i errors w H.
  - split; [reflexivity|]. exists 0. simpl. lia.
  - cbn [backup_loop]. unfold bind.
    destruct (backup_attempt_counts prompt userId i m errors w H) as (Ho & Hc & Hl).
    destruct (backup_attempt prompt userId i m errors w) as [[[d|errs]|msg] w1];
      cbn [snd] in Ho, Hc, Hl; cbv beta iota.
    + split; [exact Ho|]. exists 1. unfold ret; cbn [snd]. lia.
    + assert (H1 : forall j msg, oracle w1 j <> Thrown msg) by (rewrite Ho; exact H).
      destruct (IH (S i) errs w1 H1) as (Ho' & k & Hc' & Hl').
      split; [congruence|]. exists (S k). lia.
    + split; [exact Ho|]. exists 1. cbn [snd]. lia.
Qed.

Lemma generateVideo_counts (prompt : string) (userId : nat) (w : World) :
  (forall j msg, oracle w j <> Thrown msg) ->
  exists k,
    List.length (calls (snd (generateVideo prompt userId w))) = List.length (calls w) + k /\
    List.length (ledger (snd (generateVideo prompt userId w))) =
      List.length (ledger w) + k +
      match fst (generateVideo prompt userId w) with Ok _ => 0 | Exn _ => 1 end.
Proof.
  intros H. destruct (generateVideo prompt userId w) as [res w'] eqn:E. cbn [fst snd].
  unfold generateVideo, try_catch, bind in E. cbv zeta in E. rewrite fetch_eq in E.
  destruct (oracle w (List.length (calls w))) as [msg|ok st d] eqn:Ho;
    [exfalso; eapply H; exact Ho|].
  cbv beta iota in E.
  destruct (is_error_response ok d).
  - unfold trackApiUsage at 1 in E. cbv beta iota in E. cbn [oracle calls ledger] in E.
    match type of E with context [backup_loop prompt userId 0 BACKUP_VIDEO_MODELS ?e ?w1] =>
      assert (H1 : forall j msg, oracle w1 j <> Thrown msg) by exact H;
      destruct (backup_loop_counts prompt userId BACKUP_VIDEO_MODELS 0 e w1 H1)
        as (_ & k & Hc & Hl);
      destruct (backup_loop prompt userId 0 BACKUP_VIDEO_MODELS e w1) as [[[d'|errs]|msg] w2]
    end;
      cbn [snd calls ledger] in Hc, Hl; rewrite length_snoc in Hc; rewrite length_snoc in Hl;
      unfold ret, throw, trackApiUsage in E; cbv beta iota in E;
      injection E as <- <-; exists (S k); counts.
  - unfold trackApiUsage, ret in E. cbv beta iota in E. injection E as <- <-.
    exists 1. counts.
Qed.

Lemma checkVideoStatus_counts (rid : string) (userId : nat) (w : World) :
  List.length (calls (snd (checkVideoStatus rid userId w))) = S (List.length (calls w)) /\
  List.length (ledger (snd (checkVideoStatus rid userId w))) =
    S (List.length (ledger w)) + error_response_extra (oracle w (List.length (calls w))).
Proof.
  unfold checkVideoStatus, try_catch, bind. rewrite fetch_eq.
  destruct (oracle w (List.length (calls w))) as [msg|ok st d];
    unfold error_response_extra, trackApiUsage, throw, ret; [counts; auto|].
  destruct (is_error_response ok d); [counts; auto|].
  destruct (r_output d) as [| |[|u us]]; try (counts; auto).
  destruct (String.eqb (r_status d) "succeeded"); counts; auto.
Qed.

Lemma swapFace_counts (t : option string) (s : string) (userId : nat) (w : World) :
  List.length (calls (snd (swapFace t s userId w))) = S (List.length (calls w)) /\
  List.length (ledger (snd (swapFace t s userId w))) =
    S (List.length (ledger w)) + error_response_extra (oracle w (List.length (calls w))).
Proof.
  unfold swapFace, try_catch, bind. cbv zeta. rewrite fetch_eq.
  destruct (oracle w (List.length (calls w))) as [msg|ok st d];
    unfold error_response_extra, trackApiUsage, throw, ret; [counts; auto|].
  destruct (is_error_response ok d); counts; auto.
Qed.

Lemma checkFaceSwapStatus_counts (rid : string) (userId : nat) (w : World) :
  List.length (calls (snd (checkFaceSwapStatus rid userId w))) = S (List.length (calls w)) /\
  List.length (ledger (snd (checkFaceSwapStatus rid userId w))) = S (List.length (ledger w)).
Proof.
  unfold checkFaceSwapStatus, try_catch, bind. rewrite fetch_eq.
  destruct (oracle w (List.length (calls w))); unfold trackApiUsage, throw, ret; counts; auto.
Qed.

Lemma testConnection_counts (w : World) :
  List.length (calls (snd (testConnection w))) = S (List.length (calls w)) /\
  List.length (ledger (snd (testConnection w))) = List.length (ledger w).
Proof.
  unfold testConnection, try_catch, bind. rewrite fetch_eq.
  destruct (oracle w (List.length (calls w))); unfold ret; counts; auto.
Qed.

(** The polling loop makes at most [fuel] calls and writes a record only
    when it reports a failed job. *)
Lemma extract_poll_counts (userId : nat) (extractionId : option string) :
  forall fuel w, exists k, k <= fuel /\
    List.length (calls (snd (extract_poll userId extractionId fuel w))) =
      List.length (calls w) + k /\
    List.length (ledger (snd (extract_poll userId extractionId fuel w))) =
      List.length (ledger w) +
      match fst (extract_poll userId extractionId fuel w) with
      | Ok ExtractionFailed => 1
      | _ => 0
      end.
Proof.
  induction fuel as [|f IH]; intros w.
  - exists 0. simpl. lia.
  - destruct (extract_poll userId extractionId (S f) w) as [res w'] eqn:E. cbn [fst snd].
    cbn [extract_poll] in E. unfold bind in E. rewrite fetch_eq in E.
    destruct (oracle w (List.length (calls w))) as [msg|ok st d]; cbv beta iota in E.
    + injection E as <- <-. exists 1. split; [lia|]. counts.
    + destruct (String.eqb (r_status d) "succeeded" && output_truthy (r_output d)).
      * unfold ret in E. injection E as <- <-. exists 1. split; [lia|]. counts.
      * destruct (String.eqb (r_status d) "failed").
        -- unfold trackApiUsage, ret in E. cbv beta iota in E. injection E as <- <-.
           exists 1. split; [lia|]. counts.
        -- match type of E with extract_poll _ _ f ?w1 = _ =>
             destruct (IH w1) as (k & Hk & Hc & Hl) end.
           rewrite E in Hc, Hl. cbn [fst snd calls ledger] in Hc, Hl.
           rewrite length_snoc in Hc.
           exists (S k). split; [lia|]. split; [lia|exact Hl].
Qed.

Lemma extractFace_counts (videoData : string) (userId : nat) (w : World) :
  exists k, k <= maxAttempts /\
    List.length (calls (snd (extractFace videoData userId w))) = List.length (calls w) + 1 + k /\
    List.length (ledger (snd (extractFace videoData userId w))) = S (List.length (ledger w)).
Proof.
  destruct (extractFace videoData userId w) as [res w'] eqn:E. cbn [snd].
  unfold extractFace, extractFace_try, extractFace_catch, try_catch, bind in E. cbv zeta in E.
  rewrite fetch_eq in E.
  destruct (oracle w (List.length (calls w))) as [msg|ok st d]; cbv beta iota in E.
  - unfold trackApiUsage, ret in E. cbv beta iota in E. injection E as <- <-.
    exists 0. split; [unfold maxAttempts; lia|]. counts.
  - destruct (is_error_response ok d).
    + unfold trackApiUsage, ret in E. cbv beta iota in E. injection E as <- <-.
      exists 0. split; [unfold maxAttempts; lia|]. counts.
    + match type of E with context [extract_poll userId (r_id d) maxAttempts ?w1] =>
        destruct (extract_poll_counts userId (r_id d) maxAttempts w1) as (k & Hk & Hc & Hl);
        destruct (extract_poll userId (r_id d) maxAttempts w1) as [[[r| |]|msg] w2]
      end;
        cbn [fst snd calls ledger] in Hc, Hl; rewrite length_snoc in Hc;
        exists k; (split; [exact Hk|]); cbv beta iota in E.
      * destruct (r_output r) as [|u|[|u us]];
          unfold trackApiUsage, ret, throw in E; cbv beta iota in E;
          injection E as <- <-; counts.
      * unfold ret in E. injection E as <- <-. counts.
      * unfold trackApiUsage, ret in E. cbv beta iota in E. injection E as <- <-. counts.
      * unfold trackApiUsage, ret in E. cbv beta iota in E. injection E as <- <-. counts.
Qed.

(** The usage records each provider-client operation appends, against the
    provider calls it makes. [checkFaceSwapStatus]: one call, one record.
    [checkVideoStatus] and [swapFace]: one call, one record, but two on an
    error response (tracked before the throw and again in the [catch]).
    [testConnection]: one call, no record. [extractFace]: exactly one record
    for its 1 to 21 calls. [generateVideo], when no call throws: one record
    per submit, plus one when every model fails. *)
Theorem usage_records_per_operation (rid : string) (t : option string) (src : string)
    (prompt videoData : string) (userId : nat) (w : World) :
  let n := List.length (calls w) in
  let l := List.length (ledger w) in
  (List.length (calls (snd (checkFaceSwapStatus rid userId w))) = n + 1 /\
   List.length (ledger (snd (checkFaceSwapStatus rid userId w))) = l + 1) /\
  (List.length (calls (snd (checkVideoStatus rid userId w))) = n + 1 /\
   List.length (ledger (snd (checkVideoStatus rid userId w))) =
     l + 1 + error_response_extra (oracle w n)) /\
  (List.length (calls (snd (swapFace t src userId w))) = n + 1 /\
   List.length (ledger (snd (swapFace t src userId w))) =
     l + 1 + error_response_extra (oracle w n)) /\
  (List.length (calls (snd (testConnection w))) = n + 1 /\
   List.length (ledger (snd (testConnection w))) = l) /\
  (exists k, k <= maxAttempts /\
     List.length (calls (snd (extractFace videoData userId w))) = n + 1 + k /\
     List.length (ledger (snd (extractFace videoData userId w))) = l + 1) /\
  ((forall j msg, oracle w j <> Thrown msg) ->
   exists k,
     List.length (calls (snd (generateVideo prompt userId w))) = n + k /\
     List.length (ledger (snd (generateVideo prompt userId w))) =
       l + k + match fst (generateVideo prompt userId w) with Ok _ => 0 | Exn _ => 1 end).
Proof.
  intros n l.
  destruct (checkFaceSwapStatus_counts rid userId w) as [H1 H2].
  destruct (checkVideoStatus_counts rid userId w) as [H3 H4].
  destruct (swapFace_counts t src userId w) as [H5 H6].
  destruct (testConnection_counts w) as [H7 H8].
  destruct (extractFace_counts videoData userId w) as (k & H9 & H10 & H11).
  subst n l.
  repeat split; try lia.
  - exists k. repeat split; lia.
  - apply generateVideo_counts.
Qed.

Lemma usage_records_per_operation_witness :
  (forall j msg, oracle all_error_world j <> Thrown msg) /\
  exists k,
    List.length (calls (snd (generateVideo "a cat surfing" 7 all_error_world))) =
      List.length (calls all_error_world) + k /\
    List.length (ledger (snd (generateVideo "a cat surfing" 7 all_error_world))) =
      List.length (ledger all_error_world) + k +
      match fst (generateVideo "a cat surfing" 7 all_error_world) with
      | Ok _ => 0 | Exn _ => 1 end.
Proof.
  assert (H : forall j msg, oracle all_error_world j <> Thrown msg) by (intros; discriminate).
  split; [exact H|].
  exact (proj2 (proj2 (proj2 (proj2 (proj2
    (usage_records_per_operation "pred-1" None "face.png" "a cat surfing" "video.mp4" 7
       all_error_world))))) H).
Defined.

(** C3 (code defect): two [catch] blocks break the one-record-per-call
    rule. On an error response, [checkVideoStatus] and [swapFace] record the
    error, throw, and their [catch] records it again: one call, two records
    (their sibling [checkFaceSwapStatus] writes one). A backup submit of the
    fallback chain that throws is caught with no record at all: one call,
    the ledger unchanged, the exception only pushed to [errors]. *)
Theorem usage_records_slips (rid : string) (t : option string) (src prompt model : string)
    (userId i : nat) (errors : list string) (w : World) :
  (forall ok st d,
     oracle w (List.length (calls w)) = Resp ok st d ->
     is_error_response ok d = true ->
     List.length (calls (snd (checkVideoStatus rid userId w))) = List.length (calls w) + 1 /\
     List.length (ledger (snd (checkVideoStatus rid userId w))) = List.length (ledger w) + 2 /\
     List.length (calls (snd (swapFace t src userId w))) = List.length (calls w) + 1 /\
     List.length (ledger (snd (swapFace t src userId w))) = List.length (ledger w) + 2 /\
     List.length (calls (snd (checkFaceSwapStatus rid userId w))) = List.length (calls w) + 1 /\
     List.length (ledger (snd (checkFaceSwapStatus rid userId w))) = List.length (ledger w) + 1) /\
  (forall m,
     oracle w (List.length (calls w)) = Thrown m ->
     fst (backup_attempt prompt userId i model errors w) =
       Ok (inr (List.app errors ["Backup model " ++ nat_str (i + 1) ++ " exception: " ++ m])) /\
     calls (snd (backup_attempt prompt userId i model errors w)) =
       List.app (calls w) [Post REPLICATE_API_URL (backup_payload prompt model)] /\
     ledger (snd (backup_attempt prompt userId i model errors w)) = ledger w).
Proof.
  split.
  - intros ok st d Ho He.
    destruct (checkVideoStatus_counts rid userId w) as [H1 H2].
    destruct (swapFace_counts t src userId w) as [H3 H4].
    destruct (checkFaceSwapStatus_counts rid userId w) as [H5 H6].
    unfold error_response_extra in H2, H4. rewrite Ho, He in H2, H4.
    repeat split; lia.
  - intros m Ho. unfold backup_attempt, try_catch, bind. rewrite fetch_eq, Ho.
    repeat split; reflexivity.
Qed.

(** A status check meeting an error response writes two records for its one
    call; backup 1's submit throwing writes none. *)
Lemma usage_records_slips_witness :
  List.length (calls (snd (checkVideoStatus "pred-1" 7 all_error_world))) = 1 /\
  List.length (ledger (snd (checkVideoStatus "pred-1" 7 all_error_world))) = 2 /\
  calls (snd (backup_attempt "a cat surfing" 7 0 (hd "" BACKUP_VIDEO_MODELS) []
                sample_throws_world)) =
    [Post REPLICATE_API_URL (backup_payload "a cat surfing" (hd "" BACKUP_VIDEO_MODELS))] /\
  ledger (snd (backup_attempt "a cat surfing" 7 0 (hd "" BACKUP_VIDEO_MODELS) []
                sample_throws_world)) = [].
Proof.
  destruct (proj1 (usage_records_slips "pred-1" None "face.png" "a cat surfing" "m" 7 0 []
                     all_error_world) false 500 (mkResp None "failed" ONone (Some "E0"))
              eq_refl eq_refl) as (H1 & H2 & _).
  destruct (proj2 (usage_records_slips "pred-1" None "face.png" "a cat surfing"
                     (hd "" BACKUP_VIDEO_MODELS) 7 0 [] sample_throws_world)
              "socket hang up" eq_refl) as (_ & H3 & H4).
  split; [exact H1|]. split; [exact H2|]. split; [exact H3|exact H4].
Defined.

(** * Further properties of the services and routes *)

(** ** [ReplicateService]: single calls *)

(** [generateVideo] when the primary model accepts the job: one submit with
    the primary payload, one success record, the response returned as is. *)
Theorem generateVideo_primary_success (prompt : string) (userId : nat) (w : World)
    (ok : bool) (st : nat) (d : ReplicateResponse)
    (Ho : oracle w (List.length (calls w)) = Resp ok st d)
    (He : is_error_response ok d = false) :
  generateVideo prompt userId w =
    (Ok d, mkWorld (oracle w)
                   (List.app (calls w) [Post REPLICATE_API_URL (primary_payload prompt)])
                   (List.app (ledger w)
                      [mkUsage userId "replicate/stable-video-diffusion" (r_id d) "success" None])
                   (videos w) (users w) (next_video_id w) (emails w) (now w) (token_set w) (mail_configured w) (mail_accepts w)).
Proof.
  unfold generateVideo, try_catch, bind. cbv zeta. rewrite fetch_eq, Ho.
  cbv beta iota. rewrite He. reflexivity.
Qed.

Lemma generateVideo_primary_success_witness :
  generateVideo "a cat surfing" 7 connection_ok_world =
    (Ok (mkResp None "" ONone None),
     mkWorld (oracle connection_ok_world)
             [Post REPLICATE_API_URL (primary_payload "a cat surfing")]
             [mkUsage 7 "replicate/stable-video-diffusion" None "success" None]
             (videos connection_ok_world) (users connection_ok_world)
             (next_video_id connection_ok_world) (emails connection_ok_world)
             (now connection_ok_world) (token_set connection_ok_world)
             (mail_configured connection_ok_world) (mail_accepts connection_ok_world)).
Proof.
  exact (generateVideo_primary_success "a cat surfing" 7 connection_ok_world true 200
           (mkResp None "" ONone None) eq_refl eq_refl).
Defined.

(** [checkVideoStatus] raises exactly when its call throws (with the same
    message) or answers an error response (with a message naming the
    reason); otherwise it returns the response with its id, status and error,
    and the same first URL, a non-empty array output of a [succeeded] job
    being narrowed to its first element. *)
Theorem checkVideoStatus_outcome (rid : string) (userId : nat) (w : World) :
  match oracle w (List.length (calls w)) with
  | Thrown m => fst (checkVideoStatus rid userId w) = Exn m
  | Resp ok st d =>
      if is_error_response ok d then
        fst (checkVideoStatus rid userId w) =
          Exn ("Replicate status check API error: " ++ error_reason st d)
      else
        exists r, fst (checkVideoStatus rid userId w) = Ok r /\
          r_id r = r_id d /\ r_status r = r_status d /\ r_error r = r_error d /\
          first_url (r_output r) = first_url (r_output d) /\
          (r_status d = "succeeded" -> forall u us, r_output d = OArr (u :: us) ->
             r_output r = OStr u)
  end.
Proof.
  unfold checkVideoStatus, try_catch, bind. rewrite fetch_eq.
  destruct (oracle w (List.length (calls w))) as [m|ok st d]; [reflexivity|].
  cbv beta iota. destruct (is_error_response ok d); [reflexivity|].
  unfold trackApiUsage, ret.
  destruct (r_output d) as [|s|[|u us]] eqn:Eo; cbv beta iota.
  - eexists; split; [reflexivity|]. repeat split; rewrite ?Eo; congruence.
  - eexists; split; [reflexivity|]. repeat split; rewrite ?Eo; congruence.
  - eexists; split; [reflexivity|]. repeat split; rewrite ?Eo; congruence.
  - destruct (String.eqb (r_status d) "succeeded") eqn:Es.
    + eexists; split; [reflexivity|]. repeat split; cbn; try reflexivity.
      intros _ u' us' E. inversion E. reflexivity.
    + eexists; split; [reflexivity|]. repeat split; rewrite ?Eo; try reflexivity.
      intros Hs. apply String.eqb_eq in Hs. congruence.
Qed.

(** [checkFaceSwapStatus] never raises on a response, not even a non-OK one
    or one with an error field: it hands the body back as is. It raises only
    when the call itself throws, with that message. *)
Theorem checkFaceSwapStatus_outcome (rid : string) (userId : nat) (w : World) :
  match oracle w (List.length (calls w)) with
  | Thrown m => fst (checkFaceSwapStatus rid userId w) = Exn m
  | Resp _ _ d => fst (checkFaceSwapStatus rid userId w) = Ok d
  end.
Proof.
  unfold checkFaceSwapStatus, try_catch, bind. rewrite fetch_eq.
  destruct (oracle w (List.length (calls w))); reflexivity.
Qed.

(** [swapFace] submits one job whose input carries the target video (the
    field left out when there is none) and the source face; it returns the
    response when the provider accepts it and raises otherwise: with the call's message when it throws, and with
    "Replicate face swap API error: <reason>" on an error response. *)
Theorem swapFace_outcome (t : option string) (src : string) (userId : nat) (w : World) :
  calls (snd (swapFace t src userId w)) =
    List.app (calls w) [Post REPLICATE_API_URL (swap_payload t src)] /\
  input_keys (swap_payload t src) =
    List.app (match t with Some _ => ["target_image"] | None => [] end)
             ["source_image"; "face_index"; "keep_fps"] /\
  match oracle w (List.length (calls w)) with
  | Thrown m => fst (swapFace t src userId w) = Exn m
  | Resp ok st d =>
      fst (swapFace t src userId w) =
        if is_error_response ok d
        then Exn ("Replicate face swap API error: " ++ error_reason st d)
        else Ok d
  end.
Proof.
  assert (Hk : input_keys (swap_payload t src) =
                 List.app (match t with Some _ => ["target_image"] | None => [] end)
                          ["source_image"; "face_index"; "keep_fps"])
    by (destruct t; reflexivity).
  unfold swapFace, try_catch, bind. cbv zeta. rewrite fetch_eq.
  destruct (oracle w (List.length (calls w))) as [m|ok st d].
  - split; [reflexivity|split; [exact Hk|reflexivity]].
  - cbv beta iota.
    destruct (is_error_response ok d); (split; [reflexivity|split; [exact Hk|reflexivity]]).
Qed.

(** [testConnection] never raises and writes no usage record: it makes one
    call, reports [success] as the response's [ok] flag ([false] when the
    call throws), and leaves the stored videos as they were. *)
Theorem testConnection_outcome (w : World) :
  exists success message,
    fst (testConnection w) = Ok (success, message) /\
    success = match oracle w (List.length (calls w)) with
              | Resp ok _ _ => ok
              | Thrown _ => false
              end /\
    calls (snd (testConnection w)) = List.app (calls w) [Get CONNECTION_URL] /\
    ledger (snd (testConnection w)) = ledger w /\
    videos (snd (testConnection w)) = videos w.
Proof.
  unfold testConnection, try_catch, bind. rewrite fetch_eq.
  destruct (oracle w (List.length (calls w))) as [m|ok st d];
    do 2 eexists; repeat split; reflexivity.
Qed.

(** ** [extractFace] on success *)

Lemma extract_poll_succeeds (userId : nat) (extractionId : option string) (d : ReplicateResponse) :
  forall fuel w j,
    j < fuel ->
    (forall i, i < j -> poll_pending (oracle w (List.length (calls w) + i)) = true) ->
    (exists ok st, oracle w (List.length (calls w) + j) = Resp ok st d) ->
    String.eqb (r_status d) "succeeded" && output_truthy (r_output d) = true ->
    fst (extract_poll userId extractionId fuel w) = Ok (Extracted d) /\
    ledger (snd (extract_poll userId extractionId fuel w)) = ledger w.
Proof.
  induction fuel as [|f IH]; intros w j Hj Hpre (ok & st & Hd) Hs; [lia|].
  cbn [extract_poll]. unfold bind. rewrite fetch_eq.
  set (w1 := mkWorld _ _ _ _ _ _ _ _ _ _ _).
  assert (Hshift : forall i, oracle w1 (List.length (calls w1) + i) =
                             oracle w (List.length (calls w) + S i)).
  { intros i. cbn [w1 oracle calls]. rewrite length_app. cbn [List.length].
    f_equal. lia. }
  destruct j as [|j].
  - rewrite Nat.add_0_r in Hd. rewrite Hd. cbv beta iota. rewrite Hs. split; reflexivity.
  - pose proof (Hpre 0 ltac:(lia)) as H0. rewrite Nat.add_0_r in H0.
    destruct (oracle w (List.length (calls w))) as [m|ok0 st0 d0]; [discriminate|].
    cbv beta iota. cbn [poll_pending] in H0. apply andb_prop in H0 as [H1 H2].
    apply negb_true_iff in H1, H2. rewrite H1, H2.
    apply (IH w1 j); [lia| | |exact Hs].
    + intros i Hi. rewrite Hshift. apply Hpre. lia.
    + exists ok, st. rewrite Hshift. exact Hd.
Qed.

(** [extractFace] when the extraction succeeds: the submit is accepted, the
    polls stay pending until one reports [succeeded] with a truthy output
    whose first URL is [u], within the 20 attempts; it then returns [u] and
    writes one [success] record. *)
Theorem extractFace_success (videoData : string) (userId : nat) (w : World)
    (j : nat) (d : ReplicateResponse) (u : string)
    (Hsub : attempt_fails (oracle w (List.length (calls w))) = false)
    (Hj : j < maxAttempts)
    (Hpre : forall i, i < j -> poll_pending (oracle w (List.length (calls w) + 1 + i)) = true)
    (Hd : exists ok st, oracle w (List.length (calls w) + 1 + j) = Resp ok st d)
    (Hs : r_status d = "succeeded")
    (Ht : output_truthy (r_output d) = true)
    (Hu : first_url (r_output d) = Some u) :
  fst (extractFace videoData userId w) = Ok u /\
  exists rid, ledger (snd (extractFace videoData userId w)) =
    List.app (ledger w) [mkUsage userId "replicate/face-extraction" rid "success" None].
Proof.
  destruct (extractFace videoData userId w) as [res w'] eqn:E. cbn [fst snd].
  unfold extractFace, extractFace_try, try_catch, bind in E. cbv zeta in E.
  rewrite fetch_eq in E.
  destruct (oracle w (List.length (calls w))) as [m|ok st d0] eqn:Ho; [discriminate|].
  cbn [attempt_fails] in Hsub. cbv beta iota in E. rewrite Hsub in E.
  match type of E with context [extract_poll userId (r_id d0) maxAttempts ?w1] =>
    assert (Hshift : forall i, oracle w1 (List.length (calls w1) + i) =
                               oracle w (List.length (calls w) + 1 + i))
      by (intros i; cbn [oracle calls]; rewrite length_app; reflexivity);
    pose proof (extract_poll_succeeds userId (r_id d0) d maxAttempts w1 j Hj) as HP;
    destruct (extract_poll userId (r_id d0) maxAttempts w1) as [r w2]
  end.
  assert (Hr : r = Ok (Extracted d) /\ ledger w2 = ledger w).
  { apply HP.
    - intros i Hi. rewrite Hshift. auto.
    - destruct Hd as (ok' & st' & Hd). exists ok', st'. rewrite Hshift. exact Hd.
    - rewrite Hs, Ht. reflexivity. }
  destruct Hr as [-> Hl]. cbv beta iota in E.
  destruct (r_output d) as [|s|[|v vs]]; cbn in Ht, Hu; try discriminate;
    injection Hu as <-; unfold trackApiUsage, ret in E; cbv beta iota in E;
    injection E as <- <-; (split; [reflexivity | eexists; cbn; rewrite Hl; reflexivity]).
Qed.

Lemma extractFace_success_witness :
  fst (extractFace "video.mp4" 7 extraction_ok_world) = Ok "face-crop.png" /\
  exists rid, ledger (snd (extractFace "video.mp4" 7 extraction_ok_world)) =
    List.app (ledger extraction_ok_world)
      [mkUsage 7 "replicate/face-extraction" rid "success" None].
Proof.
  apply (extractFace_success "video.mp4" 7 extraction_ok_world 1
           (mkResp (Some "ext-1") "succeeded" (OArr ["face-crop.png"]) None));
    try reflexivity.
  - unfold maxAttempts; lia.
  - intros i Hi. destruct i as [|i]; [reflexivity|lia].
  - exists true, 200. reflexivity.
Defined.

(** ** The cost of the usage records *)

Section Appends.

Context (P : UsageRecord -> Prop) {A B : Type}.

Lemma appends_ret (a : A) : appends P (ret a).
Proof. intro w. exists []. split; [symmetry; apply app_nil_r | constructor]. Qed.

Lemma appends_throw (m : string) : appends P (@throw A m).
Proof. intro w. exists []. split; [symmetry; apply app_nil_r | constructor]. Qed.

Lemma appends_fetch (c : Call) : appends P (fetch c).
Proof.
  intro w. exists []. split; [|constructor].
  rewrite app_nil_r. apply fetch_oracle.
Qed.

Lemma appends_track u e r s m :
  P (mkUsage u e r s m) -> appends P (trackApiUsage u e r s m).
Proof. intros H w. exists [mkUsage u e r s m]. split; [reflexivity | repeat constructor; exact H]. Qed.

Lemma appends_bind (c : M A) (k : A -> M B) :
  appends P c -> (forall a, appends P (k a)) -> appends P (bind c k).
Proof.
  intros Hc Hk w. unfold bind. destruct (Hc w) as [l1 [E1 F1]].
  destruct (c w) as [[a|m] w1]; cbn [snd] in E1.
  - destruct (Hk a w1) as [l2 [E2 F2]]. exists (List.app l1 l2).
    split; [rewrite E2, E1, app_assoc; reflexivity | apply Forall_app; auto].
  - exists l1. auto.
Qed.

Lemma appends_try (c : M A) (h : string -> M A) :
  appends P c -> (forall m, appends P (h m)) -> appends P (try_catch c h).
Proof.
  intros Hc Hh w. unfold try_catch. destruct (Hc w) as [l1 [E1 F1]].
  destruct (c w) as [[a|m] w1]; cbn [snd] in E1.
  - exists l1. auto.
  - destruct (Hh m w1) as [l2 [E2 F2]]. exists (List.app l1 l2).
    split; [rewrite E2, E1, app_assoc; reflexivity | apply Forall_app; auto].
Qed.

End Appends.

Create HintDb appends.
#[local] Hint Resolve appends_ret appends_throw appends_fetch : appends.

(** Split an [appends] goal along the code; a record is checked by
    computing its cost. *)
Ltac appends_step :=
  match goal with
  | |- appends _ (bind _ _) => apply appends_bind; [|intro]
  | |- appends _ (try_catch _ _) => apply appends_try; [|intro]
  | |- appends _ (trackApiUsage _ _ _ _ _) => apply appends_track; reflexivity
  | |- appends _ (if ?b then _ else _) => destruct b
  | |- appends _ (match ?x with _ => _ end) => destruct x
  | |- appends _ (let _ := _ in _) => cbv zeta
  | |- _ => solve [eauto with appends]
  end.

Lemma backup_loop_default_cost (prompt : string) (userId : nat) :
  forall models i errors,
    appends (fun r => cost_multiplier (u_endpoint r) = 10)
      (backup_loop prompt userId i models errors).
Proof.
  induction models as [|m rest IH]; intros i errors; cbn [backup_loop].
  - apply appends_ret.
  - apply appends_bind.
    + unfold backup_attempt. repeat appends_step.
    + intros [d|errs]; [apply appends_ret | apply IH].
Qed.

Lemma extract_poll_default_cost (userId : nat) (extractionId : option string) :
  forall fuel,
    appends (fun r => cost_multiplier (u_endpoint r) = 10)
      (extract_poll userId extractionId fuel).
Proof.
  induction fuel as [|f IH]; cbn [extract_poll]; [apply appends_ret|].
  repeat appends_step.
Qed.

(** What the provider client's records cost: every record of
    [generateVideo] (primary, backups, failures) and of [extractFace] is
    billed at the default 0.01 USD, since none of their endpoint labels is a
    key of the table; [swapFace] records at 0.03 and status-check records at
    0.001. So no record is ever billed at the table's 0.05 video-generation
    rate. *)
Theorem usage_cost_by_operation (prompt videoData rid src : string) (t : option string)
    (userId : nat) :
  appends (fun r => cost_multiplier (u_endpoint r) = 10) (generateVideo prompt userId) /\
  appends (fun r => cost_multiplier (u_endpoint r) = 10) (extractFace videoData userId) /\
  appends (fun r => cost_multiplier (u_endpoint r) = 30) (swapFace t src userId) /\
  appends (fun r => cost_multiplier (u_endpoint r) = 1) (checkVideoStatus rid userId) /\
  appends (fun r => cost_multiplier (u_endpoint r) = 1) (checkFaceSwapStatus rid userId) /\
  cost_lookup "replicate/kling-video-generation" = Some 50.
Proof.
  repeat split.
  - unfold generateVideo. repeat (appends_step || apply backup_loop_default_cost).
  - unfold extractFace, extractFace_try, extractFace_catch.
    repeat (appends_step || apply extract_poll_default_cost).
  - unfold swapFace. repeat appends_step.
  - unfold checkVideoStatus. repeat appends_step.
  - unfold checkFaceSwapStatus. repeat appends_step.
Qed.

(** ** [GET /api/videos/:id]: replies and footprint *)

Section OkSatisfies.

Context {A B : Type}.

Lemma ok_ret (Q : A -> Prop) (a : A) : Q a -> ok_satisfies Q (ret a).
Proof. intros H w. exact H. Qed.

Lemma ok_throw (Q : A -> Prop) (m : string) : ok_satisfies Q (throw m).
Proof. intro w. exact I. Qed.

Lemma ok_bind (Q : B -> Prop) (c : M A) (k : A -> M B) :
  (forall a, ok_satisfies Q (k a)) -> ok_satisfies Q (bind c k).
Proof.
  intros Hk w. unfold bind. destruct (c w) as [[a|m] w1]; [apply Hk | exact I].
Qed.

Lemma ok_try (Q : A -> Prop) (c : M A) (h : string -> M A) :
  ok_satisfies Q c -> (forall m, ok_satisfies Q (h m)) -> ok_satisfies Q (try_catch c h).
Proof.
  intros Hc Hh w. unfold try_catch. specialize (Hc w).
  destruct (c w) as [[a|m] w1]; [exact Hc | apply Hh].
Qed.

Lemma touches_ret (id : nat) (a : A) : touches_only id (ret a).
Proof. intros w k _. reflexivity. Qed.

Lemma touches_keeps (id : nat) (c : M A) : keeps_videos c -> touches_only id c.
Proof. intros H w k _. rewrite H. reflexivity. Qed.

Lemma touches_bind (id : nat) (c : M A) (k : A -> M B) :
  touches_only id c -> (forall a, touches_only id (k a)) -> touches_only id (bind c k).
Proof.
  intros Hc Hk w j Hj. unfold bind. specialize (Hc w j Hj).
  destruct (c w) as [[a|m] w1]; cbn [snd] in *; [rewrite Hk|]; auto.
Qed.

Lemma touches_try (id : nat) (c : M A) (h : string -> M A) :
  touches_only id c -> (forall m, touches_only id (h m)) -> touches_only id (try_catch c h).
Proof.
  intros Hc Hh w j Hj. unfold try_catch. specialize (Hc w j Hj).
  destruct (c w) as [[a|m] w1]; cbn [snd] in *; [|rewrite Hh]; auto.
Qed.

End OkSatisfies.

Lemma touches_updateVideo (id : nat) (p : Video -> Video) : touches_only id (updateVideo id p).
Proof.
  intros w k Hk. unfold updateVideo. destruct (videos w id); [|reflexivity].
  cbn [snd videos]. apply Nat.eqb_neq in Hk. rewrite Hk. reflexivity.
Qed.

Lemma keeps_notify (uid : nat) (v : option Video) : keeps_videos (notify_completion uid v).
Proof.
  unfold notify_completion. apply keeps_bind; [apply keeps_getUser|].
  intros [u|]; [|apply keeps_ret]. destruct v as [v|]; [|apply keeps_ret].
  destruct (truthy (us_email u)); [|apply keeps_ret].
  apply keeps_bind; [|intros; apply keeps_ret].
  unfold sendVideoGenerationCompleteNotification.
  destruct (if truthy (v_notificationEmail v) then v_notificationEmail v else us_email u)
    as [addr|]; [|apply keeps_ret].
  destruct (truthy (Some addr)); [|apply keeps_ret].
  intro w. unfold sendEmail. destruct (mail_configured w && mail_accepts w addr (v_id v));
    reflexivity.
Qed.

Create HintDb routes.
#[local] Hint Resolve touches_ret touches_updateVideo : routes.
#[local] Hint Resolve ok_throw : routes.

Ltac route_step :=
  match goal with
  | |- ok_satisfies _ (bind _ _) => apply ok_bind; intro
  | |- ok_satisfies _ (try_catch _ _) => apply ok_try; [|intro]
  | |- ok_satisfies _ (ret _) => apply ok_ret; reflexivity
  | |- touches_only _ (bind _ _) => apply touches_bind; [|intro]
  | |- touches_only _ (try_catch _ _) => apply touches_try; [|intro]
  | |- touches_only _ (checkVideoStatus _ _) => apply touches_keeps, keeps_checkVideoStatus
  | |- touches_only _ (checkFaceSwapStatus _ _) => apply touches_keeps, keeps_checkFaceSwapStatus
  | |- touches_only _ (swapFace _ _ _) => apply touches_keeps, keeps_swapFace
  | |- touches_only _ (getUser _) => apply touches_keeps, keeps_getUser
  | |- touches_only _ (notify_completion _ _) => apply touches_keeps, keeps_notify
  | |- _ (if ?b then _ else _) => destruct b
  | |- _ (match ?x with _ => _ end) => destruct x
  | |- _ (let _ := _ in _) => cbv zeta
  | |- _ => solve [eauto with routes]
  end.

Lemma check_upstream_200 (video : Video) : ok_satisfies (fun r => code r = 200) (check_upstream video).
Proof. unfold check_upstream, swap_phase, updateVideoStatus. repeat route_step. Qed.

Lemma check_upstream_touches (video : Video) : touches_only (v_id video) (check_upstream video).
Proof. unfold check_upstream, swap_phase, updateVideoStatus. repeat route_step. Qed.

(** [GET /api/videos/:id] for an integer id, the video lookup itself
    succeeding: the handler never raises and never answers 500. It answers
    404 exactly when no video has the id, and 200 otherwise, an error of the
    upstream check being folded into a 200 reply. (A non-integer id makes the
    lookup throw, which the route answers 500; [getVideo] does not model
    it.) *)
Theorem get_video_reply_code (id : nat) (w : World) :
  exists r w', get_video id w = (Ok r, w') /\
    code r = match videos w id with None => 404 | Some _ => 200 end.
Proof.
  unfold get_video, try_catch, bind, getVideo.
  destruct (videos w id) as [v|]; cbv beta iota; [|do 2 eexists; split; reflexivity].
  destruct (is_terminal (v_status v)); [do 2 eexists; split; reflexivity|].
  pose proof (check_upstream_200 v w) as H.
  destruct (check_upstream v w) as [[r|m] w1]; cbn [fst] in H;
    do 2 eexists; split; try reflexivity; exact H.
Qed.

(** A status poll changes no stored video but the polled one (the store
    keying each video by its own id). *)
Theorem get_video_touches_only (id : nat) (w : World)
    (Hid : forall v, videos w id = Some v -> v_id v = id) :
  forall k, k <> id -> videos (snd (get_video id w)) k = videos w k.
Proof.
  intros k Hk. unfold get_video, try_catch, bind, getVideo.
  destruct (videos w id) as [v|] eqn:Ev; cbv beta iota; [|reflexivity].
  destruct (is_terminal (v_status v)); [reflexivity|].
  pose proof (check_upstream_touches v w k) as H. rewrite (Hid v eq_refl) in H.
  destruct (check_upstream v w) as [[r|m] w1]; cbn [snd] in *; apply H; exact Hk.
Qed.

Lemma get_video_touches_only_witness :
  (forall v, videos swap_succeeded_world 1 = Some v -> v_id v = 1) /\
  videos (snd (get_video 1 swap_succeeded_world)) 2 = videos swap_succeeded_world 2.
Proof.
  assert (H : forall v, videos swap_succeeded_world 1 = Some v -> v_id v = 1).
  { intros v E. cbn in E. injection E as <-. reflexivity. }
  split; [exact H|].
  exact (get_video_touches_only 1 swap_succeeded_world H 2 ltac:(lia)).
Defined.

(** A video still waiting for its handle (no [requestId], or an empty one) is
    answered without any call and without touching the store or the
    ledger. *)
Theorem get_video_no_handle (id : nat) (w : World) (v : Video)
    (Hv : videos w id = Some v)
    (Hs : is_terminal (v_status v) = false)
    (Hr : truthy (v_requestId v) = false) :
  get_video id w =
    (Ok (mkReply 200 (BVideo v [("message", JStr "Waiting for generation to start")])), w).
Proof.
  unfold get_video, try_catch, bind, getVideo. rewrite Hv. cbv beta iota. rewrite Hs.
  unfold check_upstream.
  destruct (v_requestId v) as [rid|]; [|reflexivity].
  unfold truthy in *. destruct (String.eqb rid "") eqn:E; [reflexivity|discriminate].
Qed.

Lemma get_video_no_handle_witness :
  get_video 1 (sample_world (fun _ => Thrown "unreachable")
                 (mkVideo 1 7 "a cat surfing" None "processing" None None None None None)) =
    (Ok (mkReply 200 (BVideo (mkVideo 1 7 "a cat surfing" None "processing" None None None None None)
                         [("message", JStr "Waiting for generation to start")])),
     sample_world (fun _ => Thrown "unreachable")
       (mkVideo 1 7 "a cat surfing" None "processing" None None None None None)).
Proof. apply get_video_no_handle; reflexivity. Defined.

(** ** [POST /api/videos], completion mails and [GET /api/test-replicate] *)



(** [POST /api/videos] rejects an unknown user with 404 and a user without
    a face image with 400, before any write or call: the world is left as it
    was. *)
Theorem post_videos_rejects (q : VideoRequest) (w : World) :
  match users w (q_userId q) with
  | None => post_videos q w = (Ok (mkReply 404 (BObj [("message", JStr "User not found")])), w)
  | Some u =>
      truthy (us_faceImageUrl u) = false ->
      post_videos q w =
        (Ok (mkReply 400 (BObj [("message", JStr "User does not have a profile image. Please upload a video first.")])), w)
  end.
Proof.
  unfold post_videos, post_videos_try, try_catch, bind, getUser. cbn beta.
  destruct (users w (q_userId q)) as [u|]; [|reflexivity].
  intro Hf. rewrite Hf. reflexivity.
Qed.

(** A completion mail is requested only when the user exists and has an
    email; it is then addressed to the video's notification address if it
    is set, else to the user's address, and is sent once exactly when
    SendGrid is configured and accepts it. A notification address alone
    never causes a mail. *)
Theorem notify_completion_recipient (uid : nat) (v : Video) (w : World) :
  let emails' := emails (snd (notify_completion uid (Some v) w)) in
  match users w uid with
  | None => emails' = emails w
  | Some u =>
      if truthy (us_email u) then
        exists addr,
          (if truthy (v_notificationEmail v) then v_notificationEmail v else us_email u) = Some addr /\
          emails' = if mail_configured w && mail_accepts w addr (v_id v)
                    then List.app (emails w) [(addr, v_id v)] else emails w
      else emails' = emails w
  end.
Proof.
  cbv zeta. unfold notify_completion, bind, getUser. cbn beta iota.
  destruct (users w uid) as [u|]; [|reflexivity].
  destruct (truthy (us_email u)) eqn:He; [|reflexivity].
  unfold sendVideoGenerationCompleteNotification. cbv zeta.
  destruct (truthy (v_notificationEmail v)) eqn:En.
  - destruct (v_notificationEmail v) as [a|]; [|discriminate].
    rewrite En. exists a. split; [reflexivity|].
    unfold sendEmail. destruct (mail_configured w && mail_accepts w a (v_id v)); reflexivity.
  - destruct (us_email u) as [a|]; [|discriminate].
    rewrite He. exists a. split; [reflexivity|].
    unfold sendEmail. destruct (mail_configured w && mail_accepts w a (v_id v)); reflexivity.
Qed.

(** [GET /api/test-replicate] answers 500 without any call when the token
    is empty; otherwise it answers 200 with the connection test's result
    (its [success] being the provider's ok flag), the token's length and a
    single outbound call: its 500 fallback is never taken. *)
Theorem test_replicate_reply (token : string) (w : World) :
  if String.eqb token "" then
    test_replicate token w =
      (Ok (mkReply 500 (BObj [("success", JBool false);
                              ("message", JStr "REPLICATE_API_TOKEN is not set in environment variables");
                              ("hasToken", JBool false)])), w)
  else
    exists success message,
      fst (test_replicate token w) =
        Ok (mkReply 200 (BObj [("success", JBool success); ("message", JStr message);
                               ("hasToken", JBool true);
                               ("tokenLength", JNum (String.length token))])) /\
      success = match oracle w (List.length (calls w)) with
                | Resp ok _ _ => ok
                | Thrown _ => false
                end /\
      calls (snd (test_replicate token w)) = List.app (calls w) [Get CONNECTION_URL] /\
      ledger (snd (test_replicate token w)) = ledger w /\
      videos (snd (test_replicate token w)) = videos w.
Proof.
  unfold test_replicate, try_catch, bind.
  destruct (String.eqb token ""); [reflexivity|].
  unfold testConnection, try_catch, bind. rewrite fetch_eq.
  destruct (oracle w (List.length (calls w))) as [m|ok st d];
    do 2 eexists; repeat split; reflexivity.
Qed.

(** ** [POST /api/users] *)

Lemma getUserByUsername_none (name : string) (db : UserDb) :
  getUserByUsername name db = None <->
  (forall u, In u (db_users db) -> du_username u <> name).
Proof.
  unfold getUserByUsername. split.
  - intros H u Hu Heq. apply (find_none _ _ H) in Hu.
    rewrite Heq, String.eqb_refl in Hu. discriminate.
  - intro H. destruct (find _ _) as [u|] eqn:E; [|reflexivity].
    apply find_some in E as [Hu Hn]. apply String.eqb_eq in Hn.
    exfalso. exact (H u Hu Hn).
Qed.

Lemma createUser_some (name pw : string) (db : UserDb) (u : DbUser) (db' : UserDb) :
  createUser name pw db = Some (u, db') ->
  (forall v, In v (db_users db) -> du_username v <> name) /\
  u = mkDbUser (db_next_id db) name pw None None (Some "not_started") /\
  db' = mkUserDb (List.app (db_users db) [u]) (S (db_next_id db)).
Proof.
  unfold createUser. destruct (getUserByUsername name db) eqn:E; [discriminate|].
  intro H. injection H as <- <-. rewrite getUserByUsername_none in E. auto.
Qed.

Lemma createUser_NoDup (name pw : string) (db : UserDb) (u : DbUser) (db' : UserDb) :
  NoDup (map du_username (db_users db)) ->
  createUser name pw db = Some (u, db') ->
  NoDup (map du_username (db_users db')).
Proof.
  intros Hnd Hc. apply createUser_some in Hc as (Hnew & -> & ->). cbn [db_users].
  rewrite map_app. cbn [map du_username].
  apply (Permutation_NoDup (Permutation_app_comm [name] _)).
  cbn [List.app]. constructor; [|exact Hnd].
  intro Hin. apply in_map_iff in Hin as [v [Hn Hv]]. exact (Hnew v Hv Hn).
Qed.

Lemma createUser_existing (name pw : string) (db : UserDb) (u : DbUser) :
  In u (db_users db) -> du_username u = name -> createUser name pw db = None.
Proof.
  intros Hu Hn. unfold createUser. destruct (getUserByUsername name db) eqn:E; [reflexivity|].
  rewrite getUserByUsername_none in E. exfalso. exact (E u Hu Hn).
Qed.

(** [POST /api/users] with a username already taken answers 400 and
    inserts nothing. *)
Theorem post_users_existing (q : UserRequest) (db : UserDb)
    (Hex : exists u, In u (db_users db) /\ du_username u = rq_username q) :
  post_users q db = (mkReply 400 (BObj [("message", JStr "Username already exists")]), db).
Proof.
  destruct q as [name pw em]. cbn [rq_username] in Hex. unfold post_users.
  destruct (getUserByUsername name db) eqn:E; [reflexivity|].
  rewrite getUserByUsername_none in E. destruct Hex as [u [Hu Hn]]. exfalso. exact (E u Hu Hn).
Qed.

Lemma post_users_existing_witness :
  (exists u, In u (db_users users_db) /\ du_username u = rq_username alice_request) /\
  post_users alice_request users_db =
    (mkReply 400 (BObj [("message", JStr "Username already exists")]), users_db).
Proof.
  assert (H : exists u, In u (db_users users_db) /\ du_username u = rq_username alice_request).
  { eexists. split; [left; reflexivity|reflexivity]. }
  split; [exact H|exact (post_users_existing alice_request users_db H)].
Defined.

(** [POST /api/users] with a new username inserts exactly one row, with
    the next id, the given name and password, no email (an [email] in the
    body is dropped), no face image and status [not_started]; the 200 reply
    is that row without its password. *)
Theorem post_users_created (q : UserRequest) (db : UserDb)
    (Hnew : forall u, In u (db_users db) -> du_username u <> rq_username q) :
  post_users q db =
    (mkReply 200 (BObj [("id", JNum (db_next_id db)); ("username", JStr (rq_username q));
                        ("email", JNull); ("faceImageUrl", JNull);
                        ("processingStatus", JStr "not_started")]),
     mkUserDb (List.app (db_users db)
                 [mkDbUser (db_next_id db) (rq_username q) (rq_password q) None None
                           (Some "not_started")])
              (S (db_next_id db))).
Proof.
  destruct q as [name pw em]. cbn [rq_username rq_password] in *. unfold post_users, createUser.
  apply (proj2 (getUserByUsername_none _ _)) in Hnew. rewrite Hnew. reflexivity.
Qed.

Lemma post_users_created_witness :
  (forall u, In u (db_users users_db) -> du_username u <> rq_username bob_request) /\
  fst (post_users bob_request users_db) =
    mkReply 200 (BObj [("id", JNum 2); ("username", JStr "bob"); ("email", JNull);
                       ("faceImageUrl", JNull); ("processingStatus", JStr "not_started")]).
Proof.
  assert (H : forall u, In u (db_users users_db) -> du_username u <> rq_username bob_request).
  { intros u [<-|[]]. discriminate. }
  split; [exact H|]. rewrite (post_users_created bob_request users_db H). reflexivity.
Defined.

(** [POST /api/users] keeps the usernames of the table pairwise
    distinct. *)
Theorem post_users_usernames_unique (q : UserRequest) (db : UserDb)
    (Hnd : NoDup (map du_username (db_users db))) :
  NoDup (map du_username (db_users (snd (post_users q db)))).
Proof.
  destruct q as [name pw em]. unfold post_users.
  destruct (getUserByUsername name db); [exact Hnd|].
  destruct (createUser name pw db) as [[u db']|] eqn:C; [|exact Hnd].
  exact (createUser_NoDup _ _ _ _ _ Hnd C).
Qed.

Lemma post_users_usernames_unique_witness :
  NoDup (map du_username (db_users users_db)) /\
  NoDup (map du_username (db_users (snd (post_users bob_request users_db)))).
Proof.
  assert (H : NoDup (map du_username (db_users users_db))).
  { cbn. constructor; [intros []|constructor]. }
  split; [exact H|exact (post_users_usernames_unique bob_request users_db H)].
Defined.

(** ** [GET /api/uploads/:id] *)

(** [GET /api/uploads/:id] answers 404 exactly when there is no such
    upload and 200 otherwise, whatever its status: it never answers 500. *)
Theorem get_upload_reply_code (uploads : nat -> option Upload) (id : nat) (db : UserDb) :
  code (fst (get_upload uploads id db)) = match uploads id with None => 404 | Some _ => 200 end.
Proof.
  unfold get_upload. destruct (uploads id) as [up|]; [|reflexivity].
  destruct (String.eqb _ "failed"); [reflexivity|].
  destruct (String.eqb _ "completed"); reflexivity.
Qed.

(** Polling an upload twice creates no more users than polling it once: a
    default user inserted by the first poll makes the second poll's insert
    fail on the unique username, even when the user is still not found
    under the upload's [userId]. *)
Theorem get_upload_users_idempotent (uploads : nat -> option Upload) (id : nat) (db : UserDb) :
  db_users (snd (get_upload uploads id (snd (get_upload uploads id db)))) =
  db_users (snd (get_upload uploads id db)).
Proof.
  unfold get_upload. destruct (uploads id) as [up|]; [|reflexivity].
  destruct (String.eqb _ "failed"); [reflexivity|].
  destruct (String.eqb _ "completed"); [reflexivity|].
  cbv zeta. cbn [snd].
  set (uid := match up_userId up with Some n => n | None => 0 end).
  set (name := "user_" ++ nat_str (if Nat.eqb uid 0 then 1 else uid)).
  destruct (getUserById uid db) eqn:G; [rewrite G; reflexivity|].
  destruct (createUser name "default_password" db) as [[u db1]|] eqn:C;
    [|rewrite G, C; reflexivity].
  destruct (getUserById uid db1); [reflexivity|].
  apply createUser_some in C as (_ & Hu & ->).
  rewrite (createUser_existing name "default_password" _ u); [reflexivity| |].
  - cbn [db_users]. apply in_or_app. right. left. reflexivity.
  - rewrite Hu. reflexivity.
Qed.

(** [GET /api/uploads/:id] keeps the usernames of the users table pairwise
    distinct. *)
Theorem get_upload_usernames_unique (uploads : nat -> option Upload) (id : nat) (db : UserDb)
    (Hnd : NoDup (map du_username (db_users db))) :
  NoDup (map du_username (db_users (snd (get_upload uploads id db)))).
Proof.
  unfold get_upload. destruct (uploads id) as [up|]; [|exact Hnd].
  destruct (String.eqb _ "failed"); [exact Hnd|].
  destruct (String.eqb _ "completed"); [exact Hnd|].
  cbv zeta. cbn [snd].
  destruct (getUserById _ db); [exact Hnd|].
  destruct (createUser _ _ db) as [[u db1]|] eqn:C; [|exact Hnd].
  exact (createUser_NoDup _ _ _ _ _ Hnd C).
Qed.

(** A pending upload whose user is missing, and a username [user_<id>]
    still free, make [GET /api/uploads/:id] insert that default user, with
    the next id of the table (not the upload's [userId]) and the password
    [default_password]. *)
Theorem get_upload_creates_default_user (uploads : nat -> option Upload) (id : nat)
    (db : UserDb) (up : Upload)
    (Hup : uploads id = Some up)
    (Hf : String.eqb (up_processingStatus up) "failed" = false)
    (Hc : String.eqb (up_processingStatus up) "completed" = false)
    (Hmissing : getUserById (match up_userId up with Some n => n | None => 0 end) db = None)
    (Hfree : forall v, In v (db_users db) ->
       du_username v <> "user_" ++ nat_str (match up_userId up with
                                            | Some (S n) => S n
                                            | _ => 1
                                            end)) :
  snd (get_upload uploads id db) =
    mkUserDb (List.app (db_users db)
                [mkDbUser (db_next_id db)
                   ("user_" ++ nat_str (match up_userId up with
                                        | Some (S n) => S n
                                        | _ => 1
                                        end))
                   "default_password" None None (Some "not_started")])
             (S (db_next_id db)).
Proof.
  unfold get_upload. rewrite Hup, Hf, Hc. cbv zeta. cbn [snd]. rewrite Hmissing.
  replace (if Nat.eqb (match up_userId up with Some n => n | None => 0 end) 0 then 1
           else match up_userId up with Some n => n | None => 0 end)
    with (match up_userId up with Some (S n) => S n | _ => 1 end)
    by (destruct (up_userId up) as [[|n]|]; reflexivity).
  unfold createUser. apply (proj2 (getUserByUsername_none _ _)) in Hfree. rewrite Hfree.
  reflexivity.
Qed.

Lemma get_upload_creates_default_user_witness :
  sample_uploads 5 = Some pending_upload /\
  snd (get_upload sample_uploads 5 users_db) =
    mkUserDb [mkDbUser 1 "alice" "pw-alice" (Some "alice@example.com") None (Some "completed");
              mkDbUser 2 "user_9" "default_password" None None (Some "not_started")] 3.
Proof.
  split; [reflexivity|].
  apply (get_upload_creates_default_user sample_uploads 5 users_db pending_upload);
    try reflexivity.
  intros v [<-|[]]. discriminate.
Defined.

Lemma get_upload_usernames_unique_witness :
  NoDup (map du_username (db_users users_db)) /\
  NoDup (map du_username (db_users (snd (get_upload sample_uploads 5 users_db)))).
Proof.
  assert (H : NoDup (map du_username (db_users users_db))).
  { cbn. constructor; [intros []|constructor]. }
  split; [exact H|exact (get_upload_usernames_unique sample_uploads 5 users_db H)].
Defined.
